(** * ComponentView and BottomSheet: a shallow embedding

    [ComponentView] (the editor host) and [BottomSheet] (the action sheet)
    of the mobile application, embedded in Rocq.  React state and callbacks
    are modelled by explicit state passing and by a trace of the observable
    calls the code makes. *)

From Stdlib Require Import String Ascii List Bool Lia QArith ZArith.
Import ListNotations.
Open Scope string_scope.

(** ** Shared JavaScript notions *)

(** Truthiness of an optional string ([undefined] or [""] are falsy). *)
Definition str_truthy (s : option string) : bool :=
  match s with
  | Some v => negb (String.eqb v "")
  | None => false
  end.

(** Truthiness of an optional boolean ([undefined] is falsy). *)
Definition bool_truthy (b : option bool) : bool :=
  match b with Some true => true | _ => false end.

(** ** The navigation interception of [ComponentView] *)
Module Navigation.

Inductive platform := ios | android | other_os.

(** The request object of [onShouldStartLoadWithRequest]. *)
Record request := mk_request {
  req_url : string;
  navigationType : option string
}.

(** The React state of [ComponentView] that the handler and the webview
    [source] read: [url] (remote fallback) and [offlineUrl]. *)
Record view_state := mk_view {
  url : string;
  offlineUrl : string
}.

(** The [source] uri of the webview once loaded:
    [offlineUrl ? offlineUrl : url]. *)
Definition loaded_uri (st : view_state) : string :=
  if String.eqb (offlineUrl st) "" then url st else offlineUrl st.

(** The calls the handler makes to the device interface. *)
Inductive nav_event := OpenUrl (u : string).

(** [onShouldStartLoadWithRequest]: the returned boolean says whether the
    webview loads the request inline; the list holds the [openUrl] calls. *)
Definition onShouldStartLoadWithRequest (os : platform) (st : view_state)
    (r : request) : bool * list nav_event :=
  if (match os with ios => true | _ => false end
        && match navigationType r with
           | Some t => String.eqb t "click" | None => false end)
     || (match os with android => true | _ => false end
         && negb (String.eqb (req_url r) (url st)))
  then (false, [OpenUrl (req_url r)])
  else (true, []).

(** The request is redirected to the external opener. *)
Definition intercepted (os : platform) (st : view_state) (r : request) : bool :=
  negb (fst (onShouldStartLoadWithRequest os st r)).

End Navigation.

(** ** The action sheet ([BottomSheet.tsx]) *)
Module Sheet.

(** [snapPoints], with the heights as exact rationals. *)
Definition snapPoints (contentHeight screenHeight : Q) : list Q :=
  let maxLimit := (17 # 20) * screenHeight in
  if Qeq_bool contentHeight 0 then [1]
  else if negb (Qle_bool maxLimit contentHeight) then [contentHeight] else [maxLimit].

(** [contentHeight = titleHeight + listHeight]. *)
Definition contentHeight (titleHeight listHeight : Q) : Q :=
  titleHeight + listHeight.

(** An animated section: its key, whether it is expandable, and the target
    value of its [Animated.Value] (the value reached by the last animation
    started on it). *)
Record anim_section := mk_anim {
  key : string;
  expandable : bool;
  animationValue : nat
}.


(** [expandSection sectionKey]: every expandable section is animated to
    [sectionKey === section.key ? 1 : 0] in parallel. *)
Definition expandSection (sectionKey : string) (secs : list anim_section)
    : list anim_section :=
  map (fun s =>
         if expandable s
         then mk_anim (key s) true (if String.eqb sectionKey (key s) then 1 else 0)
         else s) secs.

(** A sequence of selections, applied in order. *)
Definition expandAll (sel : list string) (secs : list anim_section) :=
  fold_left (fun st k => expandSection k st) sel secs.


(** An action: its callback is named by an identifier so that its calls are
    visible in the trace. *)
Record action := mk_action {
  callback : option nat;
  dismissSheetOnPress : option bool
}.

Inductive press_event := Callback (id : nat) | Dismiss.

(** [ActionItem]'s [onPress]. *)
Definition onPress (a : action) : list press_event :=
  (match callback a with Some id => [Callback id] | None => [] end)
  ++ (if bool_truthy (dismissSheetOnPress a) then [Dismiss] else []).

End Sheet.

(** ** The offline editor pipeline of [ComponentView] *)
Module Offline.

(** *** Component descriptors *)

Record package_info := mk_pkg {
  identifier : string;
  version : string;
  download_url : string;
  latest_url : option string
}.

Record component := mk_component {
  uuid : string;
  pkg : package_info
}.

(** *** The device filesystem ([react-native-fs] and [unzip]) *)

(** File contents: text that [JSON.parse] rejects, or a parsed JSON object
    whose [sn.main] field is given ([None] when it is absent). *)
Inductive content := CText (s : string) | CJson (sn_main : option string).

(** A node is a directory, a file, or a zip archive whose entries are
    given by path relative to the archive root ([None] for a directory). *)
Inductive node :=
| NDir
| NFile (c : content)
| NZip (entries : list (string * option content)).

(** The filesystem, in directory-listing order. *)
Definition fs := list (string * node).

Fixpoint strip_prefix (pre s : string) : option string :=
  match pre, s with
  | EmptyString, _ => Some s
  | String a pre', String b s' => if Ascii.eqb a b then strip_prefix pre' s' else None
  | String _ _, EmptyString => None
  end.

Fixpoint has_slash (s : string) : bool :=
  match s with
  | EmptyString => false
  | String c s' => Ascii.eqb c "/"%char || has_slash s'
  end.

(** [q] is [p] itself or lies below it. *)
Definition below (p q : string) : bool :=
  String.eqb p q || match strip_prefix (p ++ "/") q with Some _ => true | None => false end.

(** [q] is an immediate child of the directory [p]. *)
Definition child_of (p q : string) : bool :=
  match strip_prefix (p ++ "/") q with
  | Some r => negb (String.eqb r "") && negb (has_slash r)
  | None => false
  end.

Definition lookup (f : fs) (p : string) : option node :=
  match find (fun e => String.eqb (fst e) p) f with
  | Some e => Some (snd e)
  | None => None
  end.

Definition fs_exists (f : fs) (p : string) : bool :=
  match lookup f p with Some _ => true | None => false end.

(** The proper ancestors of a path (the prefixes before each ['/']). *)
Fixpoint ancestors_aux (acc s : string) : list string :=
  match s with
  | EmptyString => []
  | String c s' =>
      ((if Ascii.eqb c "/"%char && negb (String.eqb acc "") then [acc] else [])
      ++ ancestors_aux (acc ++ String c EmptyString) s')%list
  end.

Definition ancestors (p : string) : list string := ancestors_aux "" p.

(** Create the missing directories of a list, in order. *)
Definition mkdirs (ds : list string) (f : fs) : fs :=
  fold_left (fun f d => if fs_exists f d then f else (f ++ [(d, NDir)])%list) ds f.

(** Write a node at a path, creating its parent directories. *)
Definition put (p : string) (n : node) (f : fs) : fs :=
  let f := mkdirs (ancestors p) f in
  (filter (fun e => negb (String.eqb (fst e) p)) f ++ [(p, n)])%list.

(** Remove a path and everything below it. *)
Definition remove_tree (p : string) (f : fs) : fs :=
  filter (fun e => negb (below p (fst e))) f.

(** Unpack the entries of an archive below [dst]. *)
Definition unpack (dst : string) (es : list (string * option content)) (f : fs) : fs :=
  fold_left (fun f e =>
               put (dst ++ "/" ++ fst e)
                   (match snd e with Some c => NFile c | None => NDir end) f)
            es (put dst NDir f).

(** *** Errors, observable calls and the monad *)

Inductive err :=
| ENoEnt (p : string)      (* a missing path *)
| ENetwork (u : string)    (* a failed download *)
| EBadZip (p : string)     (* unzip of a file that is not an archive *)
| ESyntax                  (* JSON.parse of invalid text *)
| EType.                   (* [packageDir[0].path] of an empty listing *)

Inductive event :=
| SetReadAccessUrl (p : string)
| CheckForComponentUpdate
| SetDownloadingOfflineEditor (b : bool)
| OnDownloadEditorStart
| OnDownloadEditorEnd
| Unlink (p : string)
| DownloadFile (fromUrl toFile : string)
| Unzip (src dst : string)
| Alert
| SetOfflineUrl (u : string)
| SetUrl (u : string)
| ClearTimeout
| OnLoadError.

Record world := mk_world {
  wfs : fs;
  wtrace : list event
}.

Inductive result (A : Type) := Ok (a : A) | Throw (e : err).
Arguments Ok {A} a.
Arguments Throw {A} e.

(** An async function: state passing over the world, with exceptions. *)
Definition M (A : Type) := world -> result A * world.

Definition ret {A} (a : A) : M A := fun w => (Ok a, w).
Definition throw {A} (e : err) : M A := fun w => (Throw e, w).
Definition bind {A B} (m : M A) (k : A -> M B) : M B :=
  fun w => match m w with
           | (Ok a, w') => k a w'
           | (Throw e, w') => (Throw e, w')
           end.

Notation "x <- m ;; k" := (bind m (fun x => k))
  (at level 61, m at next level, right associativity).
Notation "m ;;; k" := (bind m (fun _ : unit => k))
  (at level 61, right associativity).

(** [try { m } finally { fin }]: a throwing [fin] would win; otherwise the
    outcome of [m] is kept. *)
Definition try_finally {A} (m : M A) (fin : M unit) : M A :=
  fun w => match m w with
           | (r, w1) => match fin w1 with
                        | (Ok _, w2) => (r, w2)
                        | (Throw e, w2) => (Throw e, w2)
                        end
           end.

(** [try { m } catch { h }]. *)
Definition try_catch {A} (m : M A) (h : err -> M A) : M A :=
  fun w => match m w with
           | (Ok a, w1) => (Ok a, w1)
           | (Throw e, w1) => h e w1
           end.

Definition emit (ev : event) : M unit :=
  fun w => (Ok tt, mk_world (wfs w) (wtrace w ++ [ev])%list).

Definition get_fs : M fs := fun w => (Ok (wfs w), w).

Definition set_fs (f : fs) : M unit :=
  fun w => (Ok tt, mk_world f (wtrace w)).

(** *** [RNFS], [unzip] and [JSON.parse] *)

(** What [RNFS.downloadFile(...).promise] does with a URL. The promise
    resolves whatever the HTTP status, with the response body written to
    [toFile] ([Served]: a zip archive, or any other file such as an error
    page); or it rejects, possibly after a partial file was written
    ([Failed]). *)
Inductive download_outcome :=
| Served (body : node)
| Failed (partial : option node).

Section Device.

(** The network: the outcome of downloading each URL. *)
Variable net : string -> download_outcome.

Definition RNFS_exists (p : string) : M bool :=
  f <- get_fs ;; ret (fs_exists f p).

(** [RNFS.readDir]: the paths of the immediate children. *)
Definition RNFS_readDir (p : string) : M (list string) :=
  f <- get_fs ;;
  match lookup f p with
  | Some NDir => ret (map fst (filter (fun e => child_of p (fst e)) f))
  | _ => throw (ENoEnt p)
  end.

Definition RNFS_readFile (p : string) : M content :=
  f <- get_fs ;;
  match lookup f p with
  | Some (NFile c) => ret c
  | Some (NZip _) => ret (CText "PK")
  | _ => throw (ENoEnt p)
  end.

(** [RNFS.unlink]: recursive; rejects a missing path. *)
Definition RNFS_unlink (p : string) : M unit :=
  f <- get_fs ;;
  if fs_exists f p then emit (Unlink p) ;;; set_fs (remove_tree p f)
  else throw (ENoEnt p).

Definition RNFS_downloadFile (fromUrl toFile : string) : M unit :=
  emit (DownloadFile fromUrl toFile) ;;;
  match net fromUrl with
  | Served n => f <- get_fs ;; set_fs (put toFile n f)
  | Failed None => throw (ENetwork fromUrl)
  | Failed (Some n) => f <- get_fs ;; set_fs (put toFile n f) ;;; throw (ENetwork fromUrl)
  end.

Definition unzip (src dst : string) : M unit :=
  emit (Unzip src dst) ;;;
  f <- get_fs ;;
  match lookup f src with
  | Some (NZip z) => set_fs (unpack dst z f)
  | _ => throw (EBadZip src)
  end.

(** [JSON.parse(...)?.sn?.main]. *)
Definition JSON_parse_sn_main (c : content) : M (option string) :=
  match c with
  | CJson m => ret m
  | CText _ => throw ESyntax
  end.

End Device.

(** *** [getOfflineEditorUrl] *)

(** The values the [useCallback] closure captures. *)
Record closure := mk_closure {
  liveComponent : option component;
  application : bool;                (* [application] is defined *)
  downloadingOfflineEditor : bool;   (* the React state captured *)
  basePath : string                  (* External- or DocumentDirectoryPath *)
}.

Definition downloadPath (b : string) (pi : package_info) : string :=
  b ++ "/" ++ identifier pi ++ ".zip".
Definition editorDir (b : string) (pi : package_info) : string :=
  b ++ "/editors/" ++ identifier pi.
Definition versionDir (b : string) (pi : package_info) : string :=
  editorDir b pi ++ "/" ++ version pi.

(** [!downloadingOfflineEditor && (!(await exists(versionDir)) ||
    (await readDir(versionDir)).length === 0)], short-circuiting. *)
Definition shouldDownload (downloading : bool) (vdir : string) : M bool :=
  if downloading then ret false
  else e <- RNFS_exists vdir ;;
       if negb e then ret true
       else d <- RNFS_readDir vdir ;; ret (Nat.eqb (length d) 0).

(** The body of the [try]: evict the previous versions, download, unzip
    and delete the archive. *)
Definition download_and_unpack net (b : string) (pi : package_info) : M unit :=
  e <- RNFS_exists (editorDir b pi) ;;
  (if e then RNFS_unlink (editorDir b pi) else ret tt) ;;;
  RNFS_downloadFile net (download_url pi) (downloadPath b pi) ;;;
  unzip (downloadPath b pi) (versionDir b pi) ;;;
  RNFS_unlink (downloadPath b pi).

(** The [if (shouldDownload)] block with its [try ... finally]. *)
Definition download_block net (b : string) (pi : package_info) : M unit :=
  emit (SetDownloadingOfflineEditor true) ;;;
  emit OnDownloadEditorStart ;;;
  try_finally (download_and_unpack net b pi)
              (emit OnDownloadEditorEnd ;;; emit (SetDownloadingOfflineEditor false)).

(** [packageJson?.sn?.main || 'index.html']. *)
Definition mainFileName (m : option string) : string :=
  match m with
  | Some s => if str_truthy (Some s) then s else "index.html"
  | None => "index.html"
  end.

(** The resolution of the main file from the version directory. *)
Definition resolve_main (vdir : string) : M string :=
  packageDir <- RNFS_readDir vdir ;;
  match packageDir with
  | [] => throw EType
  | p0 :: _ =>
      pj <- RNFS_readFile (p0 ++ "/package.json") ;;
      m <- JSON_parse_sn_main pj ;;
      let mainFilePath := p0 ++ "/" ++ mainFileName m in
      b <- RNFS_exists mainFilePath ;;
      ret (if b then "file://" ++ mainFilePath else "")
  end.

Definition getOfflineEditorUrl net (c : closure) : M string :=
  match liveComponent c with
  | None => ret ""
  | Some comp =>
      let pi := pkg comp in
      let b := basePath c in
      emit (SetReadAccessUrl (versionDir b pi)) ;;;
      sd <- shouldDownload (downloadingOfflineEditor c) (versionDir b pi) ;;
      (if application c then emit CheckForComponentUpdate else ret tt) ;;;
      (if sd then download_block net b pi else ret tt) ;;;
      resolve_main (versionDir b pi)
  end.

(** *** [setEditorUrl] (the body of the URL effect) *)

Definition onLoadErrorHandler (timeoutSet : bool) : M unit :=
  (if timeoutSet then emit ClearTimeout else ret tt) ;;; emit OnLoadError.

(** [urlForComponent] is the component manager's answer; [mounted] is the
    effect's flag as read when [getOfflineEditorUrl] settles;
    [timeoutSet] says whether [timeoutRef.current] holds a timer. *)
Definition setEditorUrl (urlForComponent : option string) (getOffline : M string)
    (mounted : bool) (offlineOnly : option bool) (timeoutSet : bool) : M unit :=
  match urlForComponent with
  | Some newUrl =>
      if str_truthy (Some newUrl) then
        try_catch
          (offlineEditorUrl <- getOffline ;;
           if mounted then emit (SetOfflineUrl offlineEditorUrl) else ret tt)
          (fun _ => if mounted
                    then if bool_truthy offlineOnly
                         then onLoadErrorHandler timeoutSet
                         else emit (SetUrl newUrl)
                    else ret tt)
      else emit Alert
  | None => emit Alert
  end.

(** *** [checkForComponentUpdate] *)

(** What [fetch(latestUrl).then(r => r.json())] yields: a rejection, or the
    parsed JSON ([None] for a falsy value such as [null]). *)
Inductive fetch_outcome := FetchError | FetchJson (v : option package_info).

Inductive update_event :=
| Fetch (u : string)
| ChangeAndSaveItem (id : string) (newInfo : package_info)
| LogError.

(** [isStarted] is [application.isStarted()] as read after the fetch. *)
Definition checkForComponentUpdate (fetchJson : string -> fetch_outcome)
    (isStarted : bool) (comp : component) : list update_event :=
  match latest_url (pkg comp) with
  | Some latestUrl =>
      if str_truthy (Some latestUrl) then
        Fetch latestUrl ::
        match fetchJson latestUrl with
        | FetchError => [LogError]
        | FetchJson None => []
        | FetchJson (Some packageInfo) =>
            if negb (String.eqb (version packageInfo) (version (pkg comp)))
               && isStarted
            then [ChangeAndSaveItem (uuid comp) packageInfo]
            else []
        end
      else []
  | None => []
  end.

(** The persistence layer applying the mutators
    ([mutator.package_info = packageInfo]). *)
Definition apply_updates (comp : component) (evs : list update_event) : component :=
  fold_left (fun c ev =>
               match ev with
               | ChangeAndSaveItem id pi =>
                   if String.eqb id (uuid c) then mk_component (uuid c) pi else c
               | _ => c
               end) evs comp.

Definition mutations (evs : list update_event) : list update_event :=
  filter (fun ev => match ev with ChangeAndSaveItem _ _ => true | _ => false end) evs.

Definition fetches (evs : list update_event) : list update_event :=
  filter (fun ev => match ev with Fetch _ => true | _ => false end) evs.

End Offline.

(** ** The rendered webview of [ComponentView] *)
Module View.
Import Navigation.

(** The view state after a [setUrl] or [setOfflineUrl] call; the other
    calls leave [url] and [offlineUrl] as they are. *)
Definition apply_event (st : view_state) (ev : Offline.event) : view_state :=
  match ev with
  | Offline.SetUrl u => mk_view u (offlineUrl st)
  | Offline.SetOfflineUrl u => mk_view (url st) u
  | _ => st
  end.

Definition apply_events (st : view_state) (evs : list Offline.event) : view_state :=
  fold_left apply_event evs st.

(** The state of the first render: [useState('')] for both URLs. *)
Definition initial_view : view_state := mk_view "" "".

(** [(Boolean(url) || Boolean(offlineUrl)) && <StyledWebview source=...>]:
    [None] when no webview is rendered, otherwise its [source] prop, which
    is [undefined] ([None]) until the first load and then
    [{ uri: offlineUrl ? offlineUrl : url }]. *)
Definition webview_source (st : view_state) (loadedOnce : bool) : option (option string) :=
  if str_truthy (Some (url st)) || str_truthy (Some (offlineUrl st))
  then Some (if loadedOnce then Some (loaded_uri st) else None)
  else None.

End View.

(** ** The timers of [onFrameLoad] and [onLoadErrorHandler]

    Time is counted in milliseconds; a [Tick] advances it by one and runs
    the timers that have become due, in the order they were created. *)
Module Timers.

Inductive timer_action := RegisterComponentWindow | OnLoadEnd.

Record timer := mk_timer {
  tid : nat;
  due : nat;
  act : timer_action
}.

Inductive frame_event := Fired (a : timer_action) | LoadErrorSignalled.

Record tstate := mk_tstate {
  now : nat;
  next_id : nat;                (* the id the next [setTimeout] returns *)
  pending : list timer;
  timeoutRef : option nat;      (* [timeoutRef.current] *)
  loadedOnce : bool;
  log : list frame_event
}.

(** Timer ids start at 1, [timeoutRef] at [undefined]. *)
Definition init : tstate := mk_tstate 0 1 [] None false [].

Definition clearTimeout (id : nat) (st : tstate) : tstate :=
  mk_tstate (now st) (next_id st)
    (filter (fun t => negb (Nat.eqb (tid t) id)) (pending st))
    (timeoutRef st) (loadedOnce st) (log st).

Definition setTimeout (a : timer_action) (delay : nat) (st : tstate) : nat * tstate :=
  (next_id st,
   mk_tstate (now st) (S (next_id st))
     (pending st ++ [mk_timer (next_id st) (now st + delay) a])
     (timeoutRef st) (loadedOnce st) (log st)).

(** [if (timeoutRef.current) clearTimeout(timeoutRef.current)]. *)
Definition clear_ref (st : tstate) : tstate :=
  match timeoutRef st with
  | Some id => if Nat.eqb id 0 then st else clearTimeout id st
  | None => st
  end.

Definition set_ref (r : option nat) (st : tstate) : tstate :=
  mk_tstate (now st) (next_id st) (pending st) r (loadedOnce st) (log st).

Definition onFrameLoad (st : tstate) : tstate :=
  let st := mk_tstate (now st) (next_id st) (pending st) (timeoutRef st) true (log st) in
  let st := clear_ref st in
  let '(id, st) := setTimeout RegisterComponentWindow 1 st in
  let st := set_ref (Some id) st in
  snd (setTimeout OnLoadEnd 200 st).

Definition onLoadErrorHandler (st : tstate) : tstate :=
  let st := clear_ref st in
  mk_tstate (now st) (next_id st) (pending st) (timeoutRef st) (loadedOnce st)
    (log st ++ [LoadErrorSignalled]).

Definition tick (st : tstate) : tstate :=
  let t := S (now st) in
  mk_tstate t (next_id st)
    (filter (fun x => negb (Nat.leb (due x) t)) (pending st))
    (timeoutRef st) (loadedOnce st)
    (log st ++ map (fun x => Fired (act x)) (filter (fun x => Nat.leb (due x) t) (pending st))).

Inductive input := FrameLoad | LoadError | Tick.

Definition step (st : tstate) (i : input) : tstate :=
  match i with
  | FrameLoad => onFrameLoad st
  | LoadError => onLoadErrorHandler st
  | Tick => tick st
  end.

Definition run (ins : list input) (st : tstate) : tstate := fold_left step ins st.

Definition count_fired (a : timer_action) (l : list frame_event) : nat :=
  length (filter (fun e => match e, a with
                           | Fired RegisterComponentWindow, RegisterComponentWindow => true
                           | Fired OnLoadEnd, OnLoadEnd => true
                           | _, _ => false
                           end) l).

Definition count_pending (a : timer_action) (l : list timer) : nat :=
  length (filter (fun t => match act t, a with
                           | RegisterComponentWindow, RegisterComponentWindow => true
                           | OnLoadEnd, OnLoadEnd => true
                           | _, _ => false
                           end) l).

End Timers.

(** ** [warnUnsupportedEditors], run by the mount effect *)
Module Warn.

Inductive warn_event := ConfirmShown | SetDoNotShowAgain.

(** One mount: [Platform.OS === 'android' && Platform.Version <= 23] gates
    the warning; the stored preference [doNotShowAgain] suppresses it;
    [confirmed] is the user's answer to the dialog. *)
Definition warnOnMount (android : bool) (version : Z) (doNotShowAgain confirmed : bool)
    : list warn_event * bool :=
  if android && Z.leb version 23 then
    if negb doNotShowAgain then
      if confirmed then ([ConfirmShown; SetDoNotShowAgain], true)
      else ([ConfirmShown], doNotShowAgain)
    else ([], doNotShowAgain)
  else ([], doNotShowAgain).

(** A sequence of mounts, each with the answer the user would give. *)
Fixpoint mounts (android : bool) (version : Z) (pref : bool) (answers : list bool)
    : list warn_event * bool :=
  match answers with
  | [] => ([], pref)
  | a :: rest =>
      let '(evs, pref') := warnOnMount android version pref a in
      let '(evs', pref'') := mounts android version pref' rest in
      ((evs ++ evs')%list, pref'')
  end.

Definition alerts (evs : list warn_event) : nat :=
  length (filter (fun e => match e with ConfirmShown => true | _ => false end) evs).

End Warn.

(** * Properties *)

(** ** Navigation interception *)
Module NavigationFacts.
Import Navigation.

(** The webview of an editor resolved offline, as [setEditorUrl] leaves it:
    [offlineUrl] holds the local file URL and [url] keeps its initial [''].*)
Definition offline_view : view_state :=
  mk_view "" "file:///data/editors/org.standardnotes.plus-editor/1.3.0/package/index.html".

Lemma android_remote_load_not_intercepted (u : string) (nt : option string) :
  intercepted android (mk_view u "") (mk_request (loaded_uri (mk_view u "")) nt) = false.
Proof.
  unfold intercepted, onShouldStartLoadWithRequest, loaded_uri; simpl.
  rewrite String.eqb_refl; reflexivity.
Qed.

(** C1 (code_bug): on Android the handler compares the request with the
    [url] state only; for an editor loaded offline [url] is [''], so a
    request for the loaded editor URL itself (the offline [file://] URL) is
    sent to [openUrl] and not loaded, although it does not differ from the
    loaded editor URL. *)
Lemma C1_android_offline_editor_load_intercepted :
  loaded_uri offline_view = offlineUrl offline_view /\
  onShouldStartLoadWithRequest android offline_view
    (mk_request (loaded_uri offline_view) None)
  = (false, [OpenUrl (offlineUrl offline_view)]).
Proof. split; reflexivity. Qed.

End NavigationFacts.

(** ** Action sheet *)
Module SheetFacts.
Import Sheet.

Lemma snap_zero (c H : Q) : c == 0 -> snapPoints c H = [1%Q].
Proof.
  intro Hc. unfold snapPoints.
  assert (E : Qeq_bool c 0 = true) by (apply Qeq_bool_iff; exact Hc).
  rewrite E; reflexivity.
Qed.

Lemma snap_nonzero (c H : Q) : ~ c == 0 ->
  snapPoints c H = if Qle_bool ((17 # 20) * H) c then [(17 # 20) * H] else [c].
Proof.
  intro Hc. unfold snapPoints.
  destruct (Qeq_bool c 0) eqn:E.
  - apply Qeq_bool_iff in E; contradiction.
  - destruct (Qle_bool ((17 # 20) * H) c); reflexivity.
Qed.

(** C7: with a positive screen height [H] and content height
    [c = titleHeight + listHeight], the snap point is [c] when
    [0 < c < 0.85 H], [0.85 H] when [c >= 0.85 H], and [1] when [c = 0];
    for [c = 400, H = 800] it is 400, for [c = 900, H = 800] it is 680,
    and for [c = 0] it is 1. *)
Theorem C7_snapPoints_cases (titleHeight listHeight H : Q) (HH : 0 < H) :
  let c := contentHeight titleHeight listHeight in
  (0 < c -> c < (17 # 20) * H -> snapPoints c H = [c]) /\
  ((17 # 20) * H <= c -> snapPoints c H = [(17 # 20) * H]) /\
  (c == 0 -> snapPoints c H = [1%Q]) /\
  snapPoints 400 800 = [400%Q] /\
  (exists m, snapPoints 900 800 = [m] /\ m == 680) /\
  snapPoints 0 H = [1%Q].
Proof.
  intro c. split; [|split; [|split; [|split; [|split]]]].
  - intros Hpos Hlt. rewrite snap_nonzero.
    + destruct (Qle_bool ((17 # 20) * H) c) eqn:E; [|reflexivity].
      apply Qle_bool_iff in E. exfalso. apply (Qlt_not_le _ _ Hlt E).
    + intro Hc. rewrite Hc in Hpos. discriminate Hpos.
  - intro Hle. rewrite snap_nonzero.
    + assert (E : Qle_bool ((17 # 20) * H) c = true) by (apply Qle_bool_iff; exact Hle).
      rewrite E; reflexivity.
    + intro Hc. rewrite Hc in Hle.
      assert (Hp : 0 < (17 # 20) * H).
      { apply Qmult_lt_0_compat; [reflexivity | exact HH]. }
      apply (Qlt_not_le _ _ Hp Hle).
  - apply snap_zero.
  - reflexivity.
  - exists ((17 # 20) * 800). split; reflexivity.
  - apply snap_zero; reflexivity.
Qed.

Lemma C7_snapPoints_cases_witness :
  0 < 800 /\
  (let c := contentHeight 300 100 in
   (0 < c -> c < (17 # 20) * 800 -> snapPoints c 800 = [c]) /\
   ((17 # 20) * 800 <= c -> snapPoints c 800 = [(17 # 20) * 800]) /\
   (c == 0 -> snapPoints c 800 = [1%Q]) /\
   snapPoints 400 800 = [400%Q] /\
   (exists m, snapPoints 900 800 = [m] /\ m == 680) /\
   snapPoints 0 800 = [1%Q]).
Proof.
  split; [reflexivity|].
  apply (C7_snapPoints_cases 300 100 800); reflexivity.
Defined.

(** *** Expand and collapse *)

Local Open Scope nat_scope.
















(** *** Action dispatch *)

(** C9: a press calls the callback once when there is one, then dismisses
    the sheet once when the action is flagged [dismissSheetOnPress]; with
    neither it does nothing. *)
Theorem C9_onPress_order (cb : option nat) (d : option bool) :
  onPress (mk_action cb d) =
  match cb, bool_truthy d with
  | Some id, true => [Callback id; Dismiss]
  | Some id, false => [Callback id]
  | None, true => [Dismiss]
  | None, false => []
  end.
Proof. destruct cb, d as [[|]|]; reflexivity. Qed.

End SheetFacts.

(** ** Update check and URL effect *)
Module UpdateFacts.
Import Offline.

Definition pkg_old : package_info :=
  mk_pkg "org.standardnotes.plus-editor" "1.3.0"
         "https://example.org/plus-editor-1.3.0.zip"
         (Some "https://example.org/plus-editor/latest.json").
Definition pkg_new : package_info :=
  mk_pkg "org.standardnotes.plus-editor" "1.4.0"
         "https://example.org/plus-editor-1.4.0.zip"
         (Some "https://example.org/plus-editor/latest.json").
Definition comp_old : component := mk_component "c0ffee" pkg_old.

(** C2 (counterexample): a fetched manifest of another version leads to no
    [changeAndSaveItem] call when [application.isStarted()] is false. *)
Lemma C2_not_started_no_mutation :
  version pkg_new <> version pkg_old /\
  fetches (checkForComponentUpdate (fun _ => FetchJson (Some pkg_new)) false comp_old)
  = [Fetch "https://example.org/plus-editor/latest.json"] /\
  mutations (checkForComponentUpdate (fun _ => FetchJson (Some pkg_new)) false comp_old) = [].
Proof. repeat split; [discriminate]. Qed.

(** C2 (amended): without a (truthy) [latest_url] nothing is fetched and
    nothing is mutated.  With one, exactly one fetch is made; a fetched
    manifest of the same version, a failed fetch, a falsy manifest or an
    application that is not started lead to no mutation; a manifest of
    another version with the application started leads to exactly one
    [changeAndSaveItem], which writes that manifest as the package info. *)
Theorem C2_update_check (fetchJson : string -> fetch_outcome) (isStarted : bool)
    (comp : component) :
  (str_truthy (latest_url (pkg comp)) = false ->
   checkForComponentUpdate fetchJson isStarted comp = [] /\
   apply_updates comp (checkForComponentUpdate fetchJson isStarted comp) = comp) /\
  (forall u, latest_url (pkg comp) = Some u -> str_truthy (Some u) = true ->
   let evs := checkForComponentUpdate fetchJson isStarted comp in
   fetches evs = [Fetch u] /\
   (forall pi', fetchJson u = FetchJson (Some pi') ->
      (version pi' = version (pkg comp) ->
         mutations evs = [] /\ apply_updates comp evs = comp) /\
      (version pi' <> version (pkg comp) -> isStarted = true ->
         mutations evs = [ChangeAndSaveItem (uuid comp) pi'] /\
         apply_updates comp evs = mk_component (uuid comp) pi') /\
      (isStarted = false -> mutations evs = [] /\ apply_updates comp evs = comp)) /\
   ((forall pi', fetchJson u <> FetchJson (Some pi')) ->
      mutations evs = [] /\ apply_updates comp evs = comp)).
Proof.
  split.
  - intro H. unfold checkForComponentUpdate.
    destruct (latest_url (pkg comp)) as [l|]; [|split; reflexivity].
    rewrite H. split; reflexivity.
  - intros u Hu Ht. cbv zeta. unfold checkForComponentUpdate. rewrite Hu, Ht. split.
    + simpl. destruct (fetchJson u) as [|[pi'|]]; simpl; try reflexivity.
      destruct (negb _ && isStarted); reflexivity.
    + split.
      * intros pi' Hf. rewrite Hf. split; [|split].
        -- intro Hv. rewrite Hv, String.eqb_refl. simpl. split; reflexivity.
        -- intros Hv Hs. subst isStarted.
           destruct (String.eqb (version pi') (version (pkg comp))) eqn:E.
           ++ apply String.eqb_eq in E. contradiction.
           ++ simpl. rewrite String.eqb_refl. destruct comp; split; reflexivity.
        -- intro Hs. subst isStarted. rewrite andb_false_r. split; reflexivity.
      * intro Hn. destruct (fetchJson u) as [|[pi'|]] eqn:F.
        -- split; reflexivity.
        -- exfalso. exact (Hn pi' eq_refl).
        -- split; reflexivity.
Qed.

(** C6 (counterexample): when the effect was torn down ([mounted] is
    false) before the offline resolution failed, neither the remote URL is
    set nor a load error signalled. *)
Lemma C6_unmounted_failure_silent :
  let w := snd (setEditorUrl (Some "https://example.org/plus-editor/index.html")
                             (throw ESyntax) false None true (mk_world [] [])) in
  wtrace w = [] /\
  ~ In (SetUrl "https://example.org/plus-editor/index.html") (wtrace w) /\
  ~ In OnLoadError (wtrace w).
Proof. simpl. split; [reflexivity|split; intros []]. Qed.

(** C6 (amended): when [urlForComponent] gives a URL and the offline
    resolution throws, [setEditorUrl] itself completes; if the effect is
    still mounted, it sets the [url] state to that remote URL when
    offline-only mode is not requested, and otherwise signals the load error
    (clearing a pending registration timer first); if it is no longer
    mounted, it does nothing more. *)
Theorem C6_offline_failure_outcomes (newUrl : string) (getOffline : M string)
    (mounted : bool) (offlineOnly : option bool) (timeoutSet : bool) (w : world)
    (e : err) (Hurl : str_truthy (Some newUrl) = true)
    (Hfail : fst (getOffline w) = Throw e) :
  let w1 := snd (getOffline w) in
  setEditorUrl (Some newUrl) getOffline mounted offlineOnly timeoutSet w =
  (Ok tt, mk_world (wfs w1)
            (wtrace w1 ++
             if mounted
             then if bool_truthy offlineOnly
                  then (if timeoutSet then [ClearTimeout] else []) ++ [OnLoadError]
                  else [SetUrl newUrl]
             else [])%list).
Proof.
  intro w1. subst w1. unfold setEditorUrl. rewrite Hurl.
  unfold try_catch, bind.
  destruct (getOffline w) as [r w1] eqn:G. simpl in Hfail. subst r. simpl.
  destruct mounted; [|rewrite app_nil_r; destruct w1; reflexivity].
  destruct (bool_truthy offlineOnly).
  - unfold onLoadErrorHandler, bind, emit, ret. destruct timeoutSet; simpl.
    + rewrite <- app_assoc. reflexivity.
    + reflexivity.
  - reflexivity.
Qed.

Lemma C6_offline_failure_outcomes_witness :
  str_truthy (Some "https://example.org/e") = true /\
  fst ((throw ESyntax : M string) (mk_world [] [])) = Throw ESyntax /\
  setEditorUrl (Some "https://example.org/e") (throw ESyntax) true None false (mk_world [] [])
  = (Ok tt, mk_world [] ([] ++ [SetUrl "https://example.org/e"])%list).
Proof.
  split; [reflexivity|split; [reflexivity|]].
  exact (C6_offline_failure_outcomes "https://example.org/e" (throw ESyntax) true None false
           (mk_world [] []) ESyntax eq_refl eq_refl).
Defined.

End UpdateFacts.

(** ** The offline pipeline *)
Module PipelineFacts.
Import Offline.

(** *** Computations that only append to the trace *)

(** [m] reads only the filesystem and appends its own events to the
    trace, whatever trace it starts from. *)
Definition local {A} (m : M A) : Prop :=
  forall f t, m (mk_world f t) =
    (fst (m (mk_world f [])),
     mk_world (wfs (snd (m (mk_world f [])))) (t ++ wtrace (snd (m (mk_world f []))))%list).

(** [m] reads the filesystem and changes nothing. *)
Definition reader {A} (m : M A) : Prop :=
  forall f t, m (mk_world f t) = (fst (m (mk_world f [])), mk_world f t).

Create HintDb pipeline.

Lemma local_ret {A} (a : A) : local (ret a).
Proof. intros f t. unfold ret; simpl. rewrite app_nil_r; reflexivity. Qed.

Lemma local_throw {A} (e : err) : local (A := A) (throw e).
Proof. intros f t. unfold throw; simpl. rewrite app_nil_r; reflexivity. Qed.

Lemma local_emit (ev : event) : local (emit ev).
Proof. intros f t. reflexivity. Qed.

Lemma local_get_fs : local get_fs.
Proof. intros f t. unfold get_fs; simpl. rewrite app_nil_r; reflexivity. Qed.

Lemma local_set_fs (g : fs) : local (set_fs g).
Proof. intros f t. unfold set_fs; simpl. rewrite app_nil_r; reflexivity. Qed.

Lemma local_bind {A B} (m : M A) (k : A -> M B) :
  local m -> (forall a, local (k a)) -> local (bind m k).
Proof.
  intros Hm Hk f t. unfold bind.
  rewrite (Hm f t). destruct (m (mk_world f [])) as [[a|e] [f1 t1]]; simpl.
  - rewrite (Hk a f1 (t ++ t1)%list), (Hk a f1 t1). simpl.
    rewrite app_assoc. reflexivity.
  - reflexivity.
Qed.

Lemma local_try_finally {A} (m : M A) (fin : M unit) :
  local m -> local fin -> local (try_finally m fin).
Proof.
  intros Hm Hf f t. unfold try_finally.
  rewrite (Hm f t). destruct (m (mk_world f [])) as [r [f1 t1]]; simpl.
  rewrite (Hf f1 (t ++ t1)%list), (Hf f1 t1).
  destruct (fin (mk_world f1 [])) as [[u|e] [f2 t2]]; simpl;
    rewrite app_assoc; reflexivity.
Qed.

Lemma reader_ret {A} (a : A) : reader (ret a).
Proof. intros f t. reflexivity. Qed.

Lemma reader_throw {A} (e : err) : reader (A := A) (throw e).
Proof. intros f t. reflexivity. Qed.

Lemma reader_get_fs : reader get_fs.
Proof. intros f t. reflexivity. Qed.

Lemma reader_bind {A B} (m : M A) (k : A -> M B) :
  reader m -> (forall a, reader (k a)) -> reader (bind m k).
Proof.
  intros Hm Hk f t. unfold bind.
  pose proof (Hm f t) as E1. pose proof (Hm f []) as E2.
  destruct (fst (m (mk_world f []))) as [a|e]; rewrite E1, E2.
  - rewrite (Hk a f t), (Hk a f []). reflexivity.
  - reflexivity.
Qed.

Lemma reader_local {A} (m : M A) : reader m -> local m.
Proof.
  intros H f t. rewrite (H f t), (H f []). simpl. rewrite app_nil_r. reflexivity.
Qed.

#[local] Hint Resolve local_ret local_throw local_emit local_get_fs local_set_fs
  reader_ret reader_throw reader_get_fs : pipeline.

(** Decompose a computation along its binds and branches. *)
Ltac decompose_m :=
  repeat first
    [ progress (intros; cbv beta)
    | solve [auto with pipeline]
    | apply local_bind | apply local_try_finally | apply reader_bind
    | match goal with
      | |- local (if ?b then _ else _) => destruct b
      | |- reader (if ?b then _ else _) => destruct b
      | |- local (match ?x with _ => _ end) => destruct x
      | |- reader (match ?x with _ => _ end) => destruct x
      end
    | solve [apply reader_local; auto with pipeline] ].

Lemma RNFS_exists_reader (p : string) : reader (RNFS_exists p).
Proof. unfold RNFS_exists. decompose_m. Qed.

Lemma RNFS_readDir_reader (p : string) : reader (RNFS_readDir p).
Proof. unfold RNFS_readDir. decompose_m. Qed.

Lemma RNFS_readFile_reader (p : string) : reader (RNFS_readFile p).
Proof. unfold RNFS_readFile. decompose_m. Qed.

Lemma JSON_parse_reader (c : content) : reader (JSON_parse_sn_main c).
Proof. unfold JSON_parse_sn_main. decompose_m. Qed.

#[local] Hint Resolve RNFS_exists_reader RNFS_readDir_reader RNFS_readFile_reader
  JSON_parse_reader : pipeline.

Lemma resolve_main_reader (vdir : string) : reader (resolve_main vdir).
Proof. unfold resolve_main. decompose_m. Qed.

Lemma shouldDownload_reader (b : bool) (vdir : string) : reader (shouldDownload b vdir).
Proof. unfold shouldDownload. decompose_m. Qed.

Lemma RNFS_unlink_local (p : string) : local (RNFS_unlink p).
Proof. unfold RNFS_unlink. decompose_m. Qed.

Lemma RNFS_downloadFile_local net (u p : string) : local (RNFS_downloadFile net u p).
Proof. unfold RNFS_downloadFile. decompose_m. Qed.

Lemma unzip_local (src dst : string) : local (unzip src dst).
Proof. unfold unzip. decompose_m. Qed.

#[local] Hint Resolve resolve_main_reader shouldDownload_reader RNFS_unlink_local
  RNFS_downloadFile_local unzip_local : pipeline.

Lemma download_and_unpack_local net b pi : local (download_and_unpack net b pi).
Proof. unfold download_and_unpack. decompose_m. Qed.

#[local] Hint Resolve download_and_unpack_local : pipeline.

Lemma download_block_local net b pi : local (download_block net b pi).
Proof. unfold download_block. decompose_m. Qed.

(** *** A populated version directory *)

Lemma populated_run net (c : closure) (comp : component) (w : world)
    (Hc : liveComponent c = Some comp)
    (Hdir : lookup (wfs w) (versionDir (basePath c) (pkg comp)) = Some NDir)
    (Hne : filter (fun e => child_of (versionDir (basePath c) (pkg comp)) (fst e)) (wfs w) <> []) :
  getOfflineEditorUrl net c w =
  (fst (resolve_main (versionDir (basePath c) (pkg comp)) (mk_world (wfs w) [])),
   mk_world (wfs w) (wtrace w ++ SetReadAccessUrl (versionDir (basePath c) (pkg comp))
                     :: (if application c then [CheckForComponentUpdate] else []))%list).
Proof.
  destruct w as [f t]; simpl in *.
  unfold getOfflineEditorUrl. rewrite Hc.
  set (vd := versionDir (basePath c) (pkg comp)) in *.
  assert (Hsd : forall t', shouldDownload (downloadingOfflineEditor c) vd (mk_world f t')
                           = (Ok false, mk_world f t')).
  { intro t'. unfold shouldDownload. destruct (downloadingOfflineEditor c); [reflexivity|].
    unfold RNFS_exists, RNFS_readDir, fs_exists, bind, get_fs, ret. simpl. rewrite Hdir. simpl.
    destruct (filter _ f) as [|e l]; [contradiction|]. rewrite Hdir. reflexivity. }
  unfold bind at 1. unfold emit at 1. simpl.
  unfold bind at 1. rewrite Hsd.
  destruct (application c); unfold bind, emit, ret; simpl;
    rewrite resolve_main_reader; simpl; rewrite <- ?app_assoc; reflexivity.
Qed.

(** C4: when [{basePath}/editors/{identifier}/{version}] is a non-empty
    directory, [getOfflineEditorUrl] downloads, unzips and deletes nothing:
    its only calls are [setReadAccessUrl] and the update check, the
    filesystem is unchanged and the result is that of resolving the main
    file from the existing directory; a second call returns the same result
    and again leaves the filesystem unchanged. *)
Theorem C4_populated_version_dir_reused net (c : closure) (comp : component) (w : world)
    (Hc : liveComponent c = Some comp)
    (Hdir : lookup (wfs w) (versionDir (basePath c) (pkg comp)) = Some NDir)
    (Hne : filter (fun e => child_of (versionDir (basePath c) (pkg comp)) (fst e)) (wfs w) <> []) :
  let vd := versionDir (basePath c) (pkg comp) in
  let chk := if application c then [CheckForComponentUpdate] else [] in
  let run := getOfflineEditorUrl net c w in
  fst run = fst (resolve_main vd (mk_world (wfs w) [])) /\
  wfs (snd run) = wfs w /\
  wtrace (snd run) = (wtrace w ++ SetReadAccessUrl vd :: chk)%list /\
  getOfflineEditorUrl net c (snd run)
  = (fst run, mk_world (wfs w) (wtrace (snd run) ++ SetReadAccessUrl vd :: chk)%list).
Proof.
  cbv zeta.
  rewrite (populated_run net c comp w Hc Hdir Hne). simpl.
  split; [reflexivity|split; [reflexivity|split; [reflexivity|]]].
  match goal with
  | |- getOfflineEditorUrl _ _ ?w' = _ => rewrite (populated_run net c comp w' Hc Hdir Hne)
  end.
  simpl. rewrite <- app_assoc. reflexivity.
Qed.

Definition ed_pkg : package_info :=
  mk_pkg "org.standardnotes.plus-editor" "1.3.0"
         "https://example.org/plus-editor-1.3.0.zip" None.
Definition ed_comp : component := mk_component "c0ffee" ed_pkg.
Definition ed_closure (downloading : bool) : closure :=
  mk_closure (Some ed_comp) true downloading "/data".
Definition ed_vdir : string := "/data/editors/org.standardnotes.plus-editor/1.3.0".

(** An installed copy of the editor. *)
Definition fs_installed : fs :=
  [("/data", NDir); ("/data/editors", NDir);
   ("/data/editors/org.standardnotes.plus-editor", NDir);
   (ed_vdir, NDir);
   (ed_vdir ++ "/package", NDir);
   (ed_vdir ++ "/package/package.json", NFile (CJson None));
   (ed_vdir ++ "/package/index.html", NFile (CText "<html></html>"))].

Lemma C4_populated_version_dir_reused_witness :
  let net := fun _ : string => Failed None in
  let w := mk_world fs_installed [] in
  let run := getOfflineEditorUrl net (ed_closure false) w in
  liveComponent (ed_closure false) = Some ed_comp /\
  lookup fs_installed ed_vdir = Some NDir /\
  fst run = fst (resolve_main ed_vdir (mk_world fs_installed [])) /\
  wfs (snd run) = fs_installed /\
  wtrace (snd run) = [SetReadAccessUrl ed_vdir; CheckForComponentUpdate] /\
  getOfflineEditorUrl net (ed_closure false) (snd run)
  = (fst run, mk_world fs_installed (wtrace (snd run) ++ [SetReadAccessUrl ed_vdir; CheckForComponentUpdate])%list).
Proof.
  intros net w run.
  assert (H1 : liveComponent (ed_closure false) = Some ed_comp) by reflexivity.
  assert (H2 : lookup (wfs w) (versionDir (basePath (ed_closure false)) (pkg ed_comp)) = Some NDir)
    by reflexivity.
  assert (H3 : filter (fun e => child_of (versionDir (basePath (ed_closure false)) (pkg ed_comp)) (fst e))
                 (wfs w) <> []) by (vm_compute; discriminate).
  destruct (C4_populated_version_dir_reused net (ed_closure false) ed_comp w H1 H2 H3)
    as [R1 [R2 [R3 R4]]].
  split; [exact H1|split; [exact H2|split; [exact R1|split; [exact R2|split; [exact R3|exact R4]]]]].
Defined.

(** *** Resolution of the main file *)





(** *** The download branch *)

(** The calls the [try] block can make. *)
Definition fs_event (ev : event) : Prop :=
  match ev with Unlink _ | DownloadFile _ _ | Unzip _ _ => True | _ => False end.

(** [m] appends to the trace only events satisfying [P]. *)
Definition traced (P : event -> Prop) {A} (m : M A) : Prop :=
  local m /\ forall f, Forall P (wtrace (snd (m (mk_world f [])))).

Lemma traced_bind (P : event -> Prop) {A B} (m : M A) (k : A -> M B) :
  traced P m -> (forall a, traced P (k a)) -> traced P (bind m k).
Proof.
  intros [Lm Tm] Hk. split.
  - apply local_bind; [exact Lm|intro a; apply (proj1 (Hk a))].
  - intro f. unfold bind. specialize (Tm f).
    destruct (m (mk_world f [])) as [[a|e] [f1 t1]]; simpl in *; [|exact Tm].
    destruct (Hk a) as [Lk Tk]. rewrite (Lk f1 t1). simpl.
    apply Forall_app; split; [exact Tm|apply Tk].
Qed.

Lemma traced_reader (P : event -> Prop) {A} (m : M A) : reader m -> traced P m.
Proof.
  intro H. split; [apply reader_local, H|].
  intro f. rewrite (H f []). constructor.
Qed.

Lemma traced_emit (P : event -> Prop) (ev : event) : P ev -> traced P (emit ev).
Proof. intro H. split; [apply local_emit|]. intro f. simpl. repeat constructor; exact H. Qed.

Lemma traced_set_fs (P : event -> Prop) (g : fs) : traced P (set_fs g).
Proof. split; [apply local_set_fs|]. intro f. constructor. Qed.

Ltac decompose_traced :=
  repeat first
    [ progress (intros; cbv beta)
    | apply traced_bind
    | apply traced_set_fs
    | solve [apply traced_emit; exact I]
    | solve [apply traced_reader; auto with pipeline]
    | match goal with
      | |- traced _ (if ?b then _ else _) => destruct b
      | |- traced _ (match ?x with _ => _ end) => destruct x
      end ].

Lemma download_and_unpack_traced net b pi :
  traced fs_event (download_and_unpack net b pi).
Proof.
  unfold download_and_unpack, RNFS_unlink, RNFS_downloadFile, unzip. decompose_traced.
Qed.

Lemma download_block_run net b pi f t :
  let dl := download_and_unpack net b pi (mk_world f []) in
  download_block net b pi (mk_world f t) =
  (fst dl,
   mk_world (wfs (snd dl))
     (t ++ [SetDownloadingOfflineEditor true; OnDownloadEditorStart]
        ++ wtrace (snd dl)
        ++ [OnDownloadEditorEnd; SetDownloadingOfflineEditor false])%list).
Proof.
  cbv zeta. unfold download_block, bind, emit, try_finally. simpl.
  rewrite download_and_unpack_local.
  destruct (download_and_unpack net b pi (mk_world f [])) as [r [f1 t1]]; simpl.
  rewrite <- !app_assoc. reflexivity.
Qed.

Lemma download_run net (c : closure) (comp : component) (w : world)
    (Hc : liveComponent c = Some comp)
    (Hsd : fst (shouldDownload (downloadingOfflineEditor c)
                  (versionDir (basePath c) (pkg comp)) (mk_world (wfs w) [])) = Ok true) :
  let vd := versionDir (basePath c) (pkg comp) in
  let chk := if application c then [CheckForComponentUpdate] else [] in
  let dl := download_and_unpack net (basePath c) (pkg comp) (mk_world (wfs w) []) in
  let tr := (wtrace w ++ SetReadAccessUrl vd :: chk
               ++ [SetDownloadingOfflineEditor true; OnDownloadEditorStart]
               ++ wtrace (snd dl)
               ++ [OnDownloadEditorEnd; SetDownloadingOfflineEditor false])%list in
  getOfflineEditorUrl net c w =
  match fst dl with
  | Ok _ => (fst (resolve_main vd (mk_world (wfs (snd dl)) [])), mk_world (wfs (snd dl)) tr)
  | Throw e => (Throw e, mk_world (wfs (snd dl)) tr)
  end.
Proof.
  cbv zeta. destruct w as [f t]; simpl in *.
  unfold getOfflineEditorUrl. rewrite Hc.
  unfold bind at 1. unfold emit at 1. simpl.
  unfold bind at 1. rewrite shouldDownload_reader, Hsd.
  destruct (application c); unfold bind at 1; unfold emit, ret;
    unfold bind at 1; rewrite download_block_run; simpl;
    destruct (download_and_unpack net (basePath c) (pkg comp) (mk_world f [])) as [[u|e] [f1 t1]];
    simpl; try (rewrite resolve_main_reader; simpl);
    rewrite <- ?app_assoc; reflexivity.
Qed.

(** C10: once [getOfflineEditorUrl] takes the download branch, the calls
    are [setDownloadingOfflineEditor(true)], [onDownloadEditorStart()], the
    filesystem calls of the [try] block (deletions, download, unzip; never
    the callbacks), then [onDownloadEditorEnd()] and
    [setDownloadingOfflineEditor(false)] exactly once, whether the block
    succeeds or throws; an error of the block is the result of the call. *)
Theorem C10_download_cleanup_once net (c : closure) (comp : component) (w : world)
    (Hc : liveComponent c = Some comp)
    (Hsd : fst (shouldDownload (downloadingOfflineEditor c)
                  (versionDir (basePath c) (pkg comp)) (mk_world (wfs w) [])) = Ok true) :
  let vd := versionDir (basePath c) (pkg comp) in
  let chk := if application c then [CheckForComponentUpdate] else [] in
  let dl := download_and_unpack net (basePath c) (pkg comp) (mk_world (wfs w) []) in
  let run := getOfflineEditorUrl net c w in
  Forall fs_event (wtrace (snd dl)) /\
  wtrace (snd run) =
    (wtrace w ++ SetReadAccessUrl vd :: chk
       ++ [SetDownloadingOfflineEditor true; OnDownloadEditorStart]
       ++ wtrace (snd dl)
       ++ [OnDownloadEditorEnd; SetDownloadingOfflineEditor false])%list /\
  (forall e, fst dl = Throw e -> fst run = Throw e) /\
  (fst dl = Ok tt -> fst run = fst (resolve_main vd (mk_world (wfs (snd dl)) []))).
Proof.
  cbv zeta. rewrite (download_run net c comp w Hc Hsd). cbv zeta.
  split; [apply (proj2 (download_and_unpack_traced net (basePath c) (pkg comp)))|].
  destruct (download_and_unpack net (basePath c) (pkg comp) (mk_world (wfs w) []))
    as [[u|e] w1]; simpl.
  - split; [reflexivity|split; [intros e He; discriminate|intros _; reflexivity]].
  - split; [reflexivity|split; [intros e' He; injection He as ->; reflexivity|intros He; discriminate]].
Qed.

(** A first install with the network down. *)
Definition net_down (u : string) : download_outcome := Failed None.

Lemma C10_download_cleanup_once_witness :
  let c := ed_closure false in
  let w := mk_world [("/data", NDir)] [] in
  liveComponent c = Some ed_comp /\
  fst (shouldDownload false ed_vdir (mk_world [("/data", NDir)] [])) = Ok true /\
  wtrace (snd (getOfflineEditorUrl net_down c w)) =
    [SetReadAccessUrl ed_vdir; CheckForComponentUpdate;
     SetDownloadingOfflineEditor true; OnDownloadEditorStart;
     DownloadFile "https://example.org/plus-editor-1.3.0.zip"
                  "/data/org.standardnotes.plus-editor.zip";
     OnDownloadEditorEnd; SetDownloadingOfflineEditor false] /\
  fst (getOfflineEditorUrl net_down c w)
  = Throw (ENetwork "https://example.org/plus-editor-1.3.0.zip").
Proof.
  intros c w.
  assert (H1 : liveComponent c = Some ed_comp) by reflexivity.
  assert (H2 : fst (shouldDownload (downloadingOfflineEditor c)
                      (versionDir (basePath c) (pkg ed_comp)) (mk_world (wfs w) [])) = Ok true)
    by reflexivity.
  destruct (C10_download_cleanup_once net_down c ed_comp w H1 H2) as [_ [T [E _]]].
  split; [exact H1|split; [exact H2|split]].
  - rewrite T. reflexivity.
  - apply E. reflexivity.
Defined.

(** *** Eviction, download and unpack *)

Local Open Scope nat_scope.

Lemma string_length_app (s1 s2 : string) :
  String.length (s1 ++ s2) = String.length s1 + String.length s2.
Proof. induction s1 as [|a s1 IH]; simpl; [reflexivity|rewrite IH; reflexivity]. Qed.

(** The archive path is neither the version directory nor below it. *)
Lemma downloadPath_not_below (b : string) (pi : package_info) (r : string) :
  downloadPath b pi <> versionDir b pi /\
  downloadPath b pi <> versionDir b pi ++ "/" ++ r.
Proof.
  unfold downloadPath, versionDir, editorDir.
  split; intro E; apply (f_equal String.length) in E;
    rewrite !string_length_app in E; simpl in E;
    rewrite ?string_length_app in E; simpl in E; lia.
Qed.

Lemma find_app {X} (g : X -> bool) (l1 l2 : list X) :
  find g (l1 ++ l2) = match find g l1 with Some x => Some x | None => find g l2 end.
Proof.
  induction l1 as [|x l1 IH]; simpl; [reflexivity|].
  destruct (g x); [reflexivity|exact IH].
Qed.

Lemma fs_exists_In (f : fs) (p : string) :
  fs_exists f p = true <-> exists n, In (p, n) f.
Proof.
  unfold fs_exists, lookup. split.
  - destruct (find _ f) as [[q n]|] eqn:F; [|discriminate]. intros _.
    apply find_some in F as [Hin Hq]. simpl in Hq. apply String.eqb_eq in Hq; subst q.
    exists n; exact Hin.
  - intros [n Hin]. destruct (find _ f) eqn:F; [reflexivity|].
    exfalso. pose proof (find_none _ _ F _ Hin) as H. simpl in H.
    rewrite String.eqb_refl in H. discriminate.
Qed.

Lemma mkdirs_keeps (ds : list string) (f : fs) (x : string * node) :
  In x f -> In x (mkdirs ds f).
Proof.
  unfold mkdirs. revert f; induction ds as [|d ds IH]; intros f H; simpl; [exact H|].
  apply IH. destruct (fs_exists f d); [exact H|apply in_or_app; left; exact H].
Qed.

Lemma put_keeps (q : string) (n' : node) (f : fs) (p : string) (n : node) :
  In (p, n) f -> p <> q -> In (p, n) (put q n' f).
Proof.
  intros H Hne. unfold put. apply in_or_app. left. apply filter_In. split.
  - apply mkdirs_keeps, H.
  - simpl. destruct (String.eqb p q) eqn:E; [apply String.eqb_eq in E; contradiction|reflexivity].
Qed.

Lemma lookup_put_same (p : string) (n : node) (f : fs) : lookup (put p n f) p = Some n.
Proof.
  unfold lookup, put. rewrite find_app.
  assert (Hn : find (fun e => String.eqb (fst e) p)
                 (filter (fun e => negb (String.eqb (fst e) p)) (mkdirs (ancestors p) f)) = None).
  { induction (mkdirs (ancestors p) f) as [|e l IH]; simpl; [reflexivity|].
    destruct (String.eqb (fst e) p) eqn:E; simpl; [exact IH|rewrite E; exact IH]. }
  rewrite Hn. simpl. rewrite String.eqb_refl. reflexivity.
Qed.

Lemma unpack_keeps (dst : string) (es : list (string * option content)) (f : fs)
    (p : string) (n : node) :
  In (p, n) f -> p <> dst -> (forall r, p <> dst ++ "/" ++ r) -> In (p, n) (unpack dst es f).
Proof.
  intros H H1 H2. unfold unpack.
  assert (H0 : In (p, n) (put dst NDir f)) by (apply put_keeps; assumption).
  revert H0. generalize (put dst NDir f). induction es as [|e es IH]; intros g Hg; simpl; [exact Hg|].
  apply IH. apply put_keeps; [exact Hg|apply H2].
Qed.

Lemma remove_tree_gone (p q : string) (f : fs) :
  below p q = true -> fs_exists (remove_tree p f) q = false.
Proof.
  intro Hb. destruct (fs_exists (remove_tree p f) q) eqn:E; [|reflexivity].
  apply fs_exists_In in E as [n Hin]. unfold remove_tree in Hin.
  apply filter_In in Hin as [_ Hk]. simpl in Hk. rewrite Hb in Hk. discriminate.
Qed.

Lemma download_and_unpack_cases net (b : string) (pi : package_info) (f : fs) :
  let ed := editorDir b pi in
  let dp := downloadPath b pi in
  let vd := versionDir b pi in
  let u := download_url pi in
  let f1 := if fs_exists f ed then remove_tree ed f else f in
  let unl := if fs_exists f ed then [Unlink ed] else [] in
  download_and_unpack net b pi (mk_world f []) =
  match net u with
  | Served (NZip z) =>
      (Ok tt, mk_world (remove_tree dp (unpack vd z (put dp (NZip z) f1)))
                (unl ++ [DownloadFile u dp; Unzip dp vd; Unlink dp])%list)
  | Served n => (Throw (EBadZip dp), mk_world (put dp n f1) (unl ++ [DownloadFile u dp; Unzip dp vd])%list)
  | Failed None => (Throw (ENetwork u), mk_world f1 (unl ++ [DownloadFile u dp])%list)
  | Failed (Some n) => (Throw (ENetwork u), mk_world (put dp n f1) (unl ++ [DownloadFile u dp])%list)
  end.
Proof.
  cbv zeta.
  assert (Hkeep : forall z g, fs_exists
            (unpack (versionDir b pi) z (put (downloadPath b pi) (NZip z) g))
            (downloadPath b pi) = true).
  { intros z g. apply fs_exists_In. exists (NZip z).
    apply unpack_keeps.
    - unfold put. apply in_or_app. right. left. reflexivity.
    - apply (downloadPath_not_below b pi "").
    - intro r. apply (downloadPath_not_below b pi r). }
  cbv [download_and_unpack RNFS_exists RNFS_unlink RNFS_downloadFile unzip
       bind ret throw emit get_fs set_fs].
  simpl. destruct (fs_exists f (editorDir b pi)) eqn:E; simpl; rewrite ?E; simpl;
    destruct (net (download_url pi)) as [[|cn|z]|[n|]]; simpl;
    rewrite ?lookup_put_same; simpl; rewrite ?Hkeep; reflexivity.
Qed.

Lemma nodownload_run net (c : closure) (comp : component) (w : world)
    (Hc : liveComponent c = Some comp)
    (Hsd : fst (shouldDownload (downloadingOfflineEditor c)
                  (versionDir (basePath c) (pkg comp)) (mk_world (wfs w) [])) = Ok false) :
  getOfflineEditorUrl net c w =
  (fst (resolve_main (versionDir (basePath c) (pkg comp)) (mk_world (wfs w) [])),
   mk_world (wfs w) (wtrace w ++ SetReadAccessUrl (versionDir (basePath c) (pkg comp))
                     :: (if application c then [CheckForComponentUpdate] else []))%list).
Proof.
  destruct w as [f t]; simpl in *.
  unfold getOfflineEditorUrl. rewrite Hc.
  unfold bind at 1. unfold emit at 1. simpl.
  unfold bind at 1. rewrite shouldDownload_reader, Hsd.
  destruct (application c); unfold bind, emit, ret; simpl;
    rewrite resolve_main_reader; simpl; rewrite <- ?app_assoc; reflexivity.
Qed.

(** C3 (counterexample): with [downloadingOfflineEditor] set, a missing
    version directory leads to no eviction: the previous version of the
    editor stays and nothing is deleted or downloaded. *)
Definition fs_previous_version : fs :=
  [("/data", NDir); ("/data/editors", NDir);
   ("/data/editors/org.standardnotes.plus-editor", NDir);
   ("/data/editors/org.standardnotes.plus-editor/1.2.0", NDir)].

Lemma C3_flag_set_no_eviction :
  let run := getOfflineEditorUrl net_down (ed_closure true) (mk_world fs_previous_version []) in
  fs_exists fs_previous_version ed_vdir = false /\
  fs_exists fs_previous_version "/data/editors/org.standardnotes.plus-editor" = true /\
  wtrace (snd run) = [SetReadAccessUrl ed_vdir; CheckForComponentUpdate] /\
  fs_exists (wfs (snd run)) "/data/editors/org.standardnotes.plus-editor/1.2.0" = true.
Proof. repeat split; reflexivity. Qed.

(** C3 (amended): let the version directory be absent or empty. When
    [downloadingOfflineEditor] is set, nothing is deleted or downloaded and
    the filesystem is unchanged. When it is false, [getOfflineEditorUrl]
    deletes [{basePath}/editors/{identifier}], if it exists, with everything
    below it, before the download starts, whatever the outcome of the
    download; then:
    - the download yields a zip archive: it is unzipped into the version
      directory and deleted, so it is no longer on disk at the end;
    - the download yields another file: [unzip] rejects it, the call
      throws, and the file stays on disk;
    - the download rejects: the call throws before any unzip, and a
      partial file, if one was written, stays on disk. *)
Theorem C3_evict_then_download net (c : closure) (comp : component) (w : world)
    (Hc : liveComponent c = Some comp)
    (Hempty : fs_exists (wfs w) (versionDir (basePath c) (pkg comp)) = false \/
              (lookup (wfs w) (versionDir (basePath c) (pkg comp)) = Some NDir /\
               filter (fun e => child_of (versionDir (basePath c) (pkg comp)) (fst e)) (wfs w) = [])) :
  let b := basePath c in
  let pi := pkg comp in
  let ed := editorDir b pi in
  let dp := downloadPath b pi in
  let vd := versionDir b pi in
  let u := download_url pi in
  let chk := if application c then [CheckForComponentUpdate] else [] in
  let evicted := if fs_exists (wfs w) ed then remove_tree ed (wfs w) else wfs w in
  let pre := (wtrace w ++ SetReadAccessUrl vd :: chk
                ++ [SetDownloadingOfflineEditor true; OnDownloadEditorStart]
                ++ (if fs_exists (wfs w) ed then [Unlink ed] else [])
                ++ [DownloadFile u dp])%list in
  let post := [OnDownloadEditorEnd; SetDownloadingOfflineEditor false] in
  let run := getOfflineEditorUrl net c w in
  (downloadingOfflineEditor c = true ->
   wfs (snd run) = wfs w /\ wtrace (snd run) = (wtrace w ++ SetReadAccessUrl vd :: chk)%list) /\
  (downloadingOfflineEditor c = false ->
   (fs_exists (wfs w) ed = true -> forall q, below ed q = true -> fs_exists evicted q = false) /\
   (forall z, net u = Served (NZip z) ->
      wtrace (snd run) = (pre ++ [Unzip dp vd; Unlink dp] ++ post)%list /\
      wfs (snd run) = remove_tree dp (unpack vd z (put dp (NZip z) evicted)) /\
      fs_exists (wfs (snd run)) dp = false) /\
   (forall n, net u = Served n -> (forall z, n <> NZip z) ->
      fst run = Throw (EBadZip dp) /\
      wtrace (snd run) = (pre ++ [Unzip dp vd] ++ post)%list /\
      wfs (snd run) = put dp n evicted /\
      fs_exists (wfs (snd run)) dp = true) /\
   (forall p, net u = Failed p ->
      fst run = Throw (ENetwork u) /\
      wtrace (snd run) = (pre ++ post)%list /\
      wfs (snd run) = match p with Some n => put dp n evicted | None => evicted end)).
Proof.
  cbv zeta. split.
  - intro Hflag.
    assert (Hsd : fst (shouldDownload (downloadingOfflineEditor c)
                         (versionDir (basePath c) (pkg comp)) (mk_world (wfs w) [])) = Ok false)
      by (rewrite Hflag; reflexivity).
    rewrite (nodownload_run net c comp w Hc Hsd). split; reflexivity.
  - intro Hflag.
    assert (Hsd : fst (shouldDownload (downloadingOfflineEditor c)
                         (versionDir (basePath c) (pkg comp)) (mk_world (wfs w) [])) = Ok true).
    { rewrite Hflag. unfold shouldDownload, RNFS_exists, RNFS_readDir, bind, get_fs, ret.
      simpl. destruct Hempty as [H|[H1 H2]].
      - rewrite H. reflexivity.
      - unfold fs_exists. rewrite H1. simpl. rewrite H1, H2. reflexivity. }
    rewrite (download_run net c comp w Hc Hsd). cbv zeta.
    rewrite (download_and_unpack_cases net (basePath c) (pkg comp) (wfs w)). cbv zeta.
    split; [|split; [|split]].
    + intros He q Hq. rewrite He. apply remove_tree_gone, Hq.
    + intros z Hz. rewrite Hz. simpl. split; [|split].
      * do 4 (rewrite <- ?app_assoc; simpl); reflexivity.
      * reflexivity.
      * apply remove_tree_gone. unfold below. rewrite String.eqb_refl. reflexivity.
    + intros n Hn Hnz. rewrite Hn.
      destruct n as [|cn|z]; [| |exfalso; exact (Hnz z eq_refl)]; simpl;
        (split; [reflexivity|split; [do 4 (rewrite <- ?app_assoc; simpl); reflexivity|split; [reflexivity|]]]);
        unfold fs_exists; rewrite lookup_put_same; reflexivity.
    + intros p Hp. rewrite Hp.
      destruct p as [n|]; simpl;
        (split; [reflexivity|split; [do 4 (rewrite <- ?app_assoc; simpl); reflexivity|reflexivity]]).
Qed.

(** The editor package as served. *)
Definition net_up (u : string) : download_outcome :=
  if String.eqb u "https://example.org/plus-editor-1.3.0.zip"
  then Served (NZip [("package", None);
                     ("package/package.json", Some (CJson None));
                     ("package/index.html", Some (CText "<html></html>"))])
  else Failed None.

Lemma C3_evict_then_download_witness :
  let c := ed_closure false in
  let w := mk_world fs_previous_version [] in
  let run := getOfflineEditorUrl net_up c w in
  fs_exists fs_previous_version ed_vdir = false /\
  wtrace (snd run) =
    [SetReadAccessUrl ed_vdir; CheckForComponentUpdate;
     SetDownloadingOfflineEditor true; OnDownloadEditorStart;
     Unlink "/data/editors/org.standardnotes.plus-editor";
     DownloadFile "https://example.org/plus-editor-1.3.0.zip"
                  "/data/org.standardnotes.plus-editor.zip";
     Unzip "/data/org.standardnotes.plus-editor.zip" ed_vdir;
     Unlink "/data/org.standardnotes.plus-editor.zip";
     OnDownloadEditorEnd; SetDownloadingOfflineEditor false] /\
  fs_exists (wfs (snd run)) "/data/org.standardnotes.plus-editor.zip" = false.
Proof.
  intros c w run.
  assert (H1 : liveComponent c = Some ed_comp) by reflexivity.
  assert (H2 : downloadingOfflineEditor c = false) by reflexivity.
  assert (H3 : fs_exists (wfs w) (versionDir (basePath c) (pkg ed_comp)) = false \/
               (lookup (wfs w) (versionDir (basePath c) (pkg ed_comp)) = Some NDir /\
                filter (fun e => child_of (versionDir (basePath c) (pkg ed_comp)) (fst e)) (wfs w) = []))
    by (left; reflexivity).
  assert (H4 : net_up (download_url (pkg ed_comp))
               = Served (NZip [("package", None);
                               ("package/package.json", Some (CJson None));
                               ("package/index.html", Some (CText "<html></html>"))])) by reflexivity.
  destruct (C3_evict_then_download net_up c ed_comp w H1 H3) as [_ F].
  destruct (F H2) as [_ [S _]].
  destruct (S _ H4) as [T [_ G]].
  unfold run. split; [reflexivity|split; [rewrite T; reflexivity|exact G]].
Defined.

End PipelineFacts.

(** ** Further properties of the code *)
Module Extras.
Import Offline.

(** *** Navigation interception *)

(** On iOS the decision ignores the view state and the URLs: a request is
    opened externally, with its own URL, exactly when its navigation type
    is ['click']; on a platform other than iOS and Android every request
    loads inline and nothing is opened. *)
Theorem nav_ios_and_other_platforms (st st' : Navigation.view_state) (r : Navigation.request) :
  (Navigation.onShouldStartLoadWithRequest Navigation.ios st r
   = Navigation.onShouldStartLoadWithRequest Navigation.ios st' r) /\
  (Navigation.intercepted Navigation.ios st r = true <->
   Navigation.navigationType r = Some "click") /\
  (snd (Navigation.onShouldStartLoadWithRequest Navigation.ios st r)
   = if Navigation.intercepted Navigation.ios st r
     then [Navigation.OpenUrl (Navigation.req_url r)] else []) /\
  (Navigation.onShouldStartLoadWithRequest Navigation.other_os st r = (true, [])).
Proof.
  unfold Navigation.intercepted, Navigation.onShouldStartLoadWithRequest. simpl.
  split; [reflexivity|split; [|split; [|reflexivity]]].
  - destruct (Navigation.navigationType r) as [t|]; simpl.
    + destruct (String.eqb t "click") eqn:E; simpl.
      * apply String.eqb_eq in E. subst t. split; reflexivity.
      * split; [discriminate|]. intro H. injection H as ->. discriminate E.
    + split; discriminate.
  - destruct (Navigation.navigationType r) as [t|]; simpl; [|reflexivity].
    destruct (String.eqb t "click"); reflexivity.
Qed.

(** On Android, while the editor is loaded from the remote URL (no offline
    URL in the state), a request is opened externally exactly when its URL
    differs from the loaded URL. *)
Theorem nav_android_remote_iff (u : string) (r : Navigation.request) :
  Navigation.intercepted Navigation.android (Navigation.mk_view u "") r = true <->
  Navigation.req_url r <> Navigation.loaded_uri (Navigation.mk_view u "").
Proof.
  unfold Navigation.intercepted, Navigation.onShouldStartLoadWithRequest, Navigation.loaded_uri.
  simpl. destruct (String.eqb (Navigation.req_url r) u) eqn:E; simpl.
  - apply String.eqb_eq in E. split; [discriminate|intro H; contradiction].
  - apply String.eqb_neq in E. split; [intros _; exact E|reflexivity].
Qed.

(** *** The rendered webview *)

(** A webview is rendered exactly when [url] or [offlineUrl] is non-empty;
    once loaded, its source URI is the offline URL when there is one and
    the remote URL otherwise, and it is never empty. *)
Theorem webview_source_spec (st : Navigation.view_state) (lo : bool) :
  (View.webview_source st lo = None <->
   Navigation.url st = "" /\ Navigation.offlineUrl st = "") /\
  (forall u, View.webview_source st true = Some (Some u) ->
   u <> "" /\ (Navigation.offlineUrl st <> "" -> u = Navigation.offlineUrl st)).
Proof.
  destruct st as [u o]. unfold View.webview_source, Navigation.loaded_uri. simpl.
  destruct (String.eqb u "") eqn:Eu, (String.eqb o "") eqn:Eo; simpl;
    apply String.eqb_eq in Eu || apply String.eqb_neq in Eu;
    apply String.eqb_eq in Eo || apply String.eqb_neq in Eo.
  - split; [split; auto|intros ? H; discriminate].
  - split; [split; [discriminate|intros [_ H]; contradiction]|].
    intros v H. injection H as <-. split; [exact Eo|auto].
  - split; [split; [discriminate|intros [H _]; contradiction]|].
    intros v H. injection H as <-. split; [exact Eu|intro H; contradiction].
  - split; [split; [discriminate|intros [H _]; contradiction]|].
    intros v H. injection H as <-. split; [exact Eo|auto].
Qed.

(** *** [setEditorUrl] *)

(** Once the effect has been cleaned up ([mounted] false when the offline
    resolution settles), [setEditorUrl] makes no call of its own, whatever
    the outcome of the resolution: no [setOfflineUrl], no [setUrl] and no
    load error; an error of the resolution is swallowed, and the world is
    the one the resolution left. *)
Theorem setEditorUrl_unmounted (newUrl : string) (getOffline : M string)
    (offlineOnly : option bool) (timeoutSet : bool) (w : world)
    (Hurl : str_truthy (Some newUrl) = true) :
  setEditorUrl (Some newUrl) getOffline false offlineOnly timeoutSet w
  = (Ok tt, snd (getOffline w)).
Proof.
  unfold setEditorUrl. rewrite Hurl. unfold try_catch, bind.
  destruct (getOffline w) as [[u|e] w1]; reflexivity.
Qed.

Lemma setEditorUrl_unmounted_witness :
  str_truthy (Some "https://example.org/e") = true /\
  setEditorUrl (Some "https://example.org/e") (throw (ENetwork "u")) false (Some true) true
    (mk_world [] [])
  = (Ok tt, mk_world [] []).
Proof.
  assert (H : str_truthy (Some "https://example.org/e") = true) by reflexivity.
  split; [exact H|].
  exact (setEditorUrl_unmounted "https://example.org/e" (throw (ENetwork "u")) (Some true) true
           (mk_world [] []) H).
Defined.

(** When the offline resolution succeeds and the effect is still mounted,
    its result is stored as [offlineUrl] and [url] is not touched; so a
    resolution to [""] (main file missing) leaves a fresh view with no
    webview at all: the remote URL is not used as a fallback. *)
Theorem setEditorUrl_offline_result (newUrl u : string) (getOffline : M string)
    (offlineOnly : option bool) (timeoutSet : bool) (w : world)
    (Hurl : str_truthy (Some newUrl) = true)
    (Hok : fst (getOffline w) = Ok u) :
  setEditorUrl (Some newUrl) getOffline true offlineOnly timeoutSet w
  = (Ok tt, mk_world (wfs (snd (getOffline w)))
                     (wtrace (snd (getOffline w)) ++ [SetOfflineUrl u])%list) /\
  (forall st, View.apply_events st [SetOfflineUrl u] = Navigation.mk_view (Navigation.url st) u) /\
  (u = "" -> forall lo, View.webview_source (View.apply_events View.initial_view [SetOfflineUrl u]) lo = None).
Proof.
  split; [|split].
  - unfold setEditorUrl. rewrite Hurl. unfold try_catch, bind.
    destruct (getOffline w) as [r w1]. simpl in Hok. subst r.
    unfold emit. reflexivity.
  - intro st. reflexivity.
  - intros -> lo. reflexivity.
Qed.

Lemma setEditorUrl_offline_result_witness :
  str_truthy (Some "https://example.org/e") = true /\
  fst ((ret "" : M string) (mk_world [] [])) = Ok "" /\
  setEditorUrl (Some "https://example.org/e") (ret "") true None false (mk_world [] [])
  = (Ok tt, mk_world [] ([] ++ [SetOfflineUrl ""])%list).
Proof.
  split; [reflexivity|split; [reflexivity|]].
  exact (proj1 (setEditorUrl_offline_result "https://example.org/e" "" (ret "") None false
                  (mk_world [] []) eq_refl eq_refl)).
Defined.

(** When the offline resolution fails and [offlineOnly] is not set, the
    mounted effect falls back to the remote URL: its only call is
    [setUrl(newUrl)]. From any view state, this sets [url] and keeps
    [offlineUrl]; once loaded, the webview shows [newUrl] when [offlineUrl]
    is empty (on a first run, say) and keeps showing the [offlineUrl] of an
    earlier successful run otherwise. On Android a load of [newUrl] is not
    redirected to the external opener. *)
Theorem remote_fallback_view (newUrl : string) (getOffline : M string)
    (offlineOnly : option bool) (timeoutSet : bool) (w : world) (e : err)
    (st : Navigation.view_state)
    (Hurl : str_truthy (Some newUrl) = true)
    (Hfail : fst (getOffline w) = Throw e)
    (Hoff : bool_truthy offlineOnly = false) :
  let w1 := snd (getOffline w) in
  let st' := View.apply_events st [SetUrl newUrl] in
  setEditorUrl (Some newUrl) getOffline true offlineOnly timeoutSet w
  = (Ok tt, mk_world (wfs w1) (wtrace w1 ++ [SetUrl newUrl])%list) /\
  Navigation.url st' = newUrl /\ Navigation.offlineUrl st' = Navigation.offlineUrl st /\
  View.webview_source st' true
  = Some (Some (if String.eqb (Navigation.offlineUrl st) "" then newUrl else Navigation.offlineUrl st)) /\
  (forall nt, Navigation.intercepted Navigation.android st' (Navigation.mk_request newUrl nt) = false).
Proof.
  cbv zeta. split; [|split; [reflexivity|split; [reflexivity|split]]].
  - unfold setEditorUrl. rewrite Hurl. unfold try_catch, bind.
    destruct (getOffline w) as [r w1]. simpl in Hfail. subst r. simpl.
    rewrite Hoff. reflexivity.
  - destruct st as [u o].
    unfold View.webview_source, Navigation.loaded_uri.
    cbn [View.apply_events fold_left View.apply_event Navigation.url Navigation.offlineUrl].
    rewrite Hurl. reflexivity.
  - intro nt. unfold Navigation.intercepted, Navigation.onShouldStartLoadWithRequest. simpl.
    rewrite String.eqb_refl. reflexivity.
Qed.

Lemma remote_fallback_view_witness :
  str_truthy (Some "https://example.org/e") = true /\
  fst ((throw (ENetwork "u") : M string) (mk_world [] [])) = Throw (ENetwork "u") /\
  bool_truthy None = false /\
  View.webview_source
    (View.apply_events (Navigation.mk_view "" "file:///old/index.html") [SetUrl "https://example.org/e"]) true
  = Some (Some "file:///old/index.html").
Proof.
  assert (H1 : str_truthy (Some "https://example.org/e") = true) by reflexivity.
  assert (H2 : fst ((throw (ENetwork "u") : M string) (mk_world [] [])) = Throw (ENetwork "u"))
    by reflexivity.
  assert (H3 : bool_truthy None = false) by reflexivity.
  split; [exact H1|split; [exact H2|split; [exact H3|]]].
  exact (proj1 (proj2 (proj2 (proj2
           (remote_fallback_view "https://example.org/e" (throw (ENetwork "u")) None false
              (mk_world [] []) (ENetwork "u") (Navigation.mk_view "" "file:///old/index.html")
              H1 H2 H3))))).
Defined.

(** *** Update check *)

(** Once a fetched manifest has been saved onto the descriptor, checking
    again against the same manifest saves nothing more. *)
Theorem update_check_converges (fetchJson : string -> fetch_outcome) (isStarted : bool)
    (comp : component) (pi' : package_info)
    (Hmut : mutations (checkForComponentUpdate fetchJson isStarted comp)
            = [ChangeAndSaveItem (uuid comp) pi'])
    (fetch2 : string -> fetch_outcome) (Hsame : forall u, fetch2 u = FetchJson (Some pi'))
    (isStarted2 : bool) :
  apply_updates comp (checkForComponentUpdate fetchJson isStarted comp) = mk_component (uuid comp) pi' /\
  mutations (checkForComponentUpdate fetch2 isStarted2
               (apply_updates comp (checkForComponentUpdate fetchJson isStarted comp))) = [].
Proof.
  assert (Happ : apply_updates comp (checkForComponentUpdate fetchJson isStarted comp)
                 = mk_component (uuid comp) pi').
  { unfold checkForComponentUpdate in *.
    destruct (latest_url (pkg comp)) as [l|]; [|discriminate].
    destruct (str_truthy (Some l)); [|discriminate].
    destruct (fetchJson l) as [|[p|]]; simpl in Hmut; try discriminate.
    destruct (negb (String.eqb (version p) (version (pkg comp))) && isStarted);
      simpl in *; [|discriminate].
    injection Hmut as ->. rewrite String.eqb_refl. reflexivity. }
  split; [exact Happ|]. rewrite Happ.
  unfold checkForComponentUpdate. simpl.
  destruct (latest_url pi') as [l|]; [|reflexivity].
  unfold str_truthy. destruct (negb (String.eqb l "")); [|reflexivity].
  rewrite Hsame. simpl. rewrite String.eqb_refl. reflexivity.
Qed.

Lemma update_check_converges_witness :
  let f := fun _ : string => FetchJson (Some UpdateFacts.pkg_new) in
  mutations (checkForComponentUpdate f true UpdateFacts.comp_old)
  = [ChangeAndSaveItem (uuid UpdateFacts.comp_old) UpdateFacts.pkg_new] /\
  mutations (checkForComponentUpdate f true
               (apply_updates UpdateFacts.comp_old
                  (checkForComponentUpdate f true UpdateFacts.comp_old))) = [].
Proof.
  intro f.
  assert (H : mutations (checkForComponentUpdate f true UpdateFacts.comp_old)
              = [ChangeAndSaveItem (uuid UpdateFacts.comp_old) UpdateFacts.pkg_new])
    by reflexivity.
  split; [exact H|].
  exact (proj2 (update_check_converges f true UpdateFacts.comp_old UpdateFacts.pkg_new H
                  f (fun _ => eq_refl) true)).
Defined.

(** *** [getOfflineEditorUrl]: further runs *)

Lemma shouldDownload_throw_run net (c : closure) (comp : component) (w : world) (e : err)
    (Hc : liveComponent c = Some comp)
    (Hsd : fst (shouldDownload (downloadingOfflineEditor c)
                  (versionDir (basePath c) (pkg comp)) (mk_world (wfs w) [])) = Throw e) :
  fst (getOfflineEditorUrl net c w) = Throw e.
Proof.
  destruct w as [f t]; simpl in *.
  unfold getOfflineEditorUrl. rewrite Hc.
  unfold bind at 1. unfold emit at 1. simpl.
  unfold bind at 1. rewrite PipelineFacts.shouldDownload_reader, Hsd. reflexivity.
Qed.

(** A successful resolution of the main file reads a non-empty directory. *)
Lemma resolve_main_ok_populated (vd : string) (f : fs) (t : list event) (u : string) :
  fst (resolve_main vd (mk_world f t)) = Ok u ->
  lookup f vd = Some NDir /\ filter (fun e => child_of vd (fst e)) f <> [].
Proof.
  unfold resolve_main, RNFS_readDir, bind, get_fs, ret, throw. simpl.
  destruct (lookup f vd) as [[| |]|]; simpl; try discriminate.
  intro H. split; [reflexivity|]. intro Hf. rewrite Hf in H. simpl in H. discriminate.
Qed.

(** When a call succeeds, its result is the resolution of the main file in
    the filesystem the call leaves. *)
Lemma getOffline_ok_resolve net (c : closure) (comp : component) (w : world) (u : string)
    (Hc : liveComponent c = Some comp)
    (Hok : fst (getOfflineEditorUrl net c w) = Ok u) :
  fst (resolve_main (versionDir (basePath c) (pkg comp))
         (mk_world (wfs (snd (getOfflineEditorUrl net c w))) [])) = Ok u.
Proof.
  destruct (fst (shouldDownload (downloadingOfflineEditor c)
                   (versionDir (basePath c) (pkg comp)) (mk_world (wfs w) [])))
    as [[|]|e] eqn:Hsd.
  - pose proof (PipelineFacts.download_run net c comp w Hc Hsd) as R. cbv zeta in R.
    rewrite R in Hok |- *.
    destruct (fst (download_and_unpack net (basePath c) (pkg comp) (mk_world (wfs w) [])));
      simpl in *; [exact Hok|discriminate].
  - rewrite (PipelineFacts.nodownload_run net c comp w Hc Hsd) in Hok |- *. exact Hok.
  - rewrite (shouldDownload_throw_run net c comp w e Hc Hsd) in Hok. discriminate.
Qed.

(** Once a call of [getOfflineEditorUrl] has returned a URL (the empty one
    included), every later call for the same component and base path
    returns the same URL without downloading, unzipping or deleting
    anything, whatever [downloadingOfflineEditor] and [application] hold in
    that later call: its only calls are [setReadAccessUrl] and the update
    check. *)
Theorem offline_url_cached net (c : closure) (comp : component) (w : world) (u : string)
    (Hc : liveComponent c = Some comp)
    (Hok : fst (getOfflineEditorUrl net c w) = Ok u) :
  let w1 := snd (getOfflineEditorUrl net c w) in
  forall c', liveComponent c' = Some comp -> basePath c' = basePath c ->
  getOfflineEditorUrl net c' w1
  = (Ok u, mk_world (wfs w1)
             (wtrace w1 ++ SetReadAccessUrl (versionDir (basePath c) (pkg comp))
                :: (if application c' then [CheckForComponentUpdate] else []))%list).
Proof.
  intros w1 c' Hc' Hb.
  pose proof (getOffline_ok_resolve net c comp w u Hc Hok) as R.
  destruct (resolve_main_ok_populated _ _ _ _ R) as [Hd Hn].
  rewrite <- Hb in Hd, Hn.
  rewrite (PipelineFacts.populated_run net c' comp w1 Hc' Hd Hn).
  rewrite Hb. unfold w1. rewrite R. reflexivity.
Qed.

Lemma offline_url_cached_witness :
  let c := PipelineFacts.ed_closure false in
  let w := mk_world PipelineFacts.fs_previous_version [] in
  let w1 := snd (getOfflineEditorUrl PipelineFacts.net_up c w) in
  liveComponent c = Some PipelineFacts.ed_comp /\
  fst (getOfflineEditorUrl PipelineFacts.net_up c w)
  = Ok ("file://" ++ PipelineFacts.ed_vdir ++ "/package/index.html") /\
  getOfflineEditorUrl PipelineFacts.net_up (PipelineFacts.ed_closure true) w1
  = (Ok ("file://" ++ PipelineFacts.ed_vdir ++ "/package/index.html"),
     mk_world (wfs w1) (wtrace w1 ++ [SetReadAccessUrl PipelineFacts.ed_vdir;
                                      CheckForComponentUpdate])%list).
Proof.
  intros c w w1.
  assert (H1 : liveComponent c = Some PipelineFacts.ed_comp) by reflexivity.
  assert (H2 : fst (getOfflineEditorUrl PipelineFacts.net_up c w)
               = Ok ("file://" ++ PipelineFacts.ed_vdir ++ "/package/index.html"))
    by (vm_compute; reflexivity).
  split; [exact H1|split; [exact H2|]].
  exact (offline_url_cached PipelineFacts.net_up c PipelineFacts.ed_comp w _ H1 H2
           (PipelineFacts.ed_closure true) eq_refl eq_refl).
Defined.

(** A version directory whose first entry has no readable [package.json]
    makes every call fail: [getOfflineEditorUrl] throws (a missing file, or
    a syntax error for a file that is not JSON), leaves the filesystem as it
    is and never downloads the package again, since the directory is not
    empty. *)
Theorem broken_package_never_repaired net (c : closure) (comp : component) (w : world)
    (p0 : string) (rest : list string)
    (Hc : liveComponent c = Some comp)
    (Hdir : lookup (wfs w) (versionDir (basePath c) (pkg comp)) = Some NDir)
    (Hls : map fst (filter (fun e => child_of (versionDir (basePath c) (pkg comp)) (fst e)) (wfs w))
           = p0 :: rest)
    (Hbad : forall m, lookup (wfs w) (p0 ++ "/package.json") <> Some (NFile (CJson m))) :
  getOfflineEditorUrl net c w
  = (Throw (match lookup (wfs w) (p0 ++ "/package.json") with
            | Some (NFile _) | Some (NZip _) => ESyntax
            | _ => ENoEnt (p0 ++ "/package.json")
            end),
     mk_world (wfs w) (wtrace w ++ SetReadAccessUrl (versionDir (basePath c) (pkg comp))
                       :: (if application c then [CheckForComponentUpdate] else []))%list).
Proof.
  assert (Hne : filter (fun e => child_of (versionDir (basePath c) (pkg comp)) (fst e)) (wfs w) <> []).
  { intro E. rewrite E in Hls. discriminate. }
  rewrite (PipelineFacts.populated_run net c comp w Hc Hdir Hne). f_equal.
  unfold resolve_main, RNFS_readDir, RNFS_readFile, JSON_parse_sn_main, bind, get_fs, ret, throw.
  simpl. rewrite Hdir. simpl. rewrite Hls. simpl.
  destruct (lookup (wfs w) (p0 ++ "/package.json")) as [[|[s|m]|es]|]; try reflexivity.
  exfalso. exact (Hbad m eq_refl).
Qed.

Lemma broken_package_never_repaired_witness :
  let f := [("/data/editors/org.standardnotes.plus-editor/1.3.0", NDir);
            ("/data/editors/org.standardnotes.plus-editor/1.3.0/package", NDir)] in
  let c := PipelineFacts.ed_closure false in
  lookup f PipelineFacts.ed_vdir = Some NDir /\
  getOfflineEditorUrl PipelineFacts.net_up c (mk_world f [])
  = (Throw (ENoEnt (PipelineFacts.ed_vdir ++ "/package/package.json")),
     mk_world f [SetReadAccessUrl PipelineFacts.ed_vdir; CheckForComponentUpdate]).
Proof.
  intros f c.
  assert (H1 : liveComponent c = Some PipelineFacts.ed_comp) by reflexivity.
  assert (H2 : lookup (wfs (mk_world f [])) (versionDir (basePath c) (pkg PipelineFacts.ed_comp))
               = Some NDir) by reflexivity.
  assert (H3 : map fst (filter (fun e => child_of (versionDir (basePath c) (pkg PipelineFacts.ed_comp))
                                                  (fst e)) (wfs (mk_world f [])))
               = [PipelineFacts.ed_vdir ++ "/package"]) by reflexivity.
  assert (H4 : forall m, lookup (wfs (mk_world f [])) ((PipelineFacts.ed_vdir ++ "/package") ++ "/package.json")
                         <> Some (NFile (CJson m))) by (intros m; vm_compute; discriminate).
  split; [exact H2|].
  exact (broken_package_never_repaired PipelineFacts.net_up c PipelineFacts.ed_comp
           (mk_world f []) _ [] H1 H2 H3 H4).
Defined.

Lemma strip_prefix_slash (p s : string) : strip_prefix (p ++ "/") (p ++ "/" ++ s) = Some s.
Proof.
  induction p as [|a p IH]; simpl.
  - reflexivity.
  - rewrite Ascii.eqb_refl. exact IH.
Qed.

Lemma versionDir_below (b : string) (pi : package_info) :
  below (editorDir b pi) (versionDir b pi) = true.
Proof.
  unfold below, versionDir. rewrite strip_prefix_slash. apply Bool.orb_true_r.
Qed.

Lemma download_and_unpack_offline net (b : string) (pi : package_info) (f : fs)
    (Hnet : net (download_url pi) = Failed None) :
  download_and_unpack net b pi (mk_world f []) =
  (Throw (ENetwork (download_url pi)),
   mk_world (if fs_exists f (editorDir b pi) then remove_tree (editorDir b pi) f else f)
     ((if fs_exists f (editorDir b pi) then [Unlink (editorDir b pi)] else [])
      ++ [DownloadFile (download_url pi) (downloadPath b pi)])%list).
Proof.
  cbv [download_and_unpack RNFS_exists RNFS_unlink RNFS_downloadFile unzip
       bind ret throw emit get_fs set_fs].
  simpl. destruct (fs_exists f (editorDir b pi)) eqn:E; simpl; rewrite ?E; simpl;
    rewrite Hnet; reflexivity.
Qed.

(** A download that fails (the request to [download_url] is rejected)
    makes the call throw the network error after evicting the editor
    directory; the version directory is then missing or still empty, so the
    next call, with [downloadingOfflineEditor] reset to false by the
    [finally] block, takes the download branch again. *)
Theorem failed_download_retried net (c : closure) (comp : component) (w : world)
    (Hc : liveComponent c = Some comp)
    (Hsd : fst (shouldDownload (downloadingOfflineEditor c)
                  (versionDir (basePath c) (pkg comp)) (mk_world (wfs w) [])) = Ok true)
    (Hnet : net (download_url (pkg comp)) = Failed None) :
  let ed := editorDir (basePath c) (pkg comp) in
  let run := getOfflineEditorUrl net c w in
  fst run = Throw (ENetwork (download_url (pkg comp))) /\
  wfs (snd run) = (if fs_exists (wfs w) ed then remove_tree ed (wfs w) else wfs w) /\
  fst (shouldDownload false (versionDir (basePath c) (pkg comp)) (mk_world (wfs (snd run)) []))
  = Ok true.
Proof.
  cbv zeta.
  assert (Hflag : downloadingOfflineEditor c = false).
  { destruct (downloadingOfflineEditor c); [discriminate|reflexivity]. }
  rewrite (PipelineFacts.download_run net c comp w Hc Hsd).
  rewrite Hflag in Hsd. cbv zeta.
  rewrite (download_and_unpack_offline net (basePath c) (pkg comp) (wfs w) Hnet). simpl.
  split; [reflexivity|split; [reflexivity|]].
  destruct (fs_exists (wfs w) (editorDir (basePath c) (pkg comp))) eqn:E; [|exact Hsd].
  unfold shouldDownload, RNFS_exists, bind, get_fs, ret. simpl.
  rewrite (PipelineFacts.remove_tree_gone _ _ _ (versionDir_below (basePath c) (pkg comp))).
  reflexivity.
Qed.

Lemma failed_download_retried_witness :
  let c := PipelineFacts.ed_closure false in
  let w := mk_world PipelineFacts.fs_previous_version [] in
  let run := getOfflineEditorUrl PipelineFacts.net_down c w in
  fst run = Throw (ENetwork "https://example.org/plus-editor-1.3.0.zip") /\
  wfs (snd run) = [("/data", NDir); ("/data/editors", NDir)] /\
  fst (shouldDownload false PipelineFacts.ed_vdir (mk_world (wfs (snd run)) [])) = Ok true.
Proof.
  intros c w run.
  assert (H1 : liveComponent c = Some PipelineFacts.ed_comp) by reflexivity.
  assert (H2 : fst (shouldDownload (downloadingOfflineEditor c)
                      (versionDir (basePath c) (pkg PipelineFacts.ed_comp)) (mk_world (wfs w) []))
               = Ok true) by reflexivity.
  assert (H3 : PipelineFacts.net_down (download_url (pkg PipelineFacts.ed_comp)) = Failed None)
    by reflexivity.
  destruct (failed_download_retried PipelineFacts.net_down c PipelineFacts.ed_comp w H1 H2 H3)
    as [R1 [R2 R3]].
  unfold run. split; [exact R1|split; [rewrite R2; reflexivity|exact R3]].
Defined.

(** *** The timers of [onFrameLoad] *)

Module TimerFacts.
Import Timers.
Local Open Scope nat_scope.

Definition is_reg (t : timer) : bool :=
  match act t with RegisterComponentWindow => true | OnLoadEnd => false end.

(** The number of [onFrameLoad] calls in a sequence of inputs. *)
Definition frame_loads (ins : list input) : nat :=
  length (filter (fun i => match i with FrameLoad => true | _ => false end) ins).

(** The invariant of the reachable timer states: ids are fresh and
    distinct, a pending registration is the one [timeoutRef] holds, and no
    timer is due more than 200 ms ahead. *)
Definition Inv (st : tstate) : Prop :=
  0 < next_id st /\
  NoDup (map tid (pending st)) /\
  (forall t, In t (pending st) -> 0 < tid t < next_id st) /\
  (forall t, In t (pending st) -> act t = RegisterComponentWindow -> timeoutRef st = Some (tid t)) /\
  (forall t, In t (pending st) -> act t = OnLoadEnd -> timeoutRef st <> Some (tid t)) /\
  (forall t, In t (pending st) -> due t <= now st + 200).

Lemma filter_id {X} (g : X -> bool) (l : list X) :
  (forall x, In x l -> g x = true) -> filter g l = l.
Proof.
  induction l as [|x l IH]; intro H; simpl; [reflexivity|].
  rewrite (H x (or_introl eq_refl)), IH; [reflexivity|intros y Hy; apply H; right; exact Hy].
Qed.

Lemma filter_filter_and {X} (f g : X -> bool) (l : list X) :
  filter f (filter g l) = filter (fun x => g x && f x) l.
Proof.
  induction l as [|x l IH]; simpl; [reflexivity|].
  destruct (g x); simpl; [destruct (f x); simpl|]; rewrite ?IH; reflexivity.
Qed.

Lemma filter_none {X} (g : X -> bool) (l : list X) :
  (forall x, In x l -> g x = false) -> filter g l = [].
Proof.
  induction l as [|x l IH]; intro H; simpl; [reflexivity|].
  rewrite (H x (or_introl eq_refl)). apply IH. intros y Hy; apply H; right; exact Hy.
Qed.

Lemma NoDup_map_filter (q : timer -> bool) (l : list timer) :
  NoDup (map tid l) -> NoDup (map tid (filter q l)).
Proof.
  induction l as [|x l IH]; intro H; simpl; [constructor|].
  inversion H as [|? ? Hx Hl]; subst.
  destruct (q x); simpl; [|apply IH, Hl].
  constructor; [|apply IH, Hl].
  intro Hin. apply Hx. apply in_map_iff in Hin as [y [Hy Hin]].
  apply filter_In in Hin as [Hin _]. rewrite <- Hy. apply in_map, Hin.
Qed.

Lemma NoDup_snoc (l : list nat) (n : nat) : NoDup l -> ~ In n l -> NoDup (l ++ [n]).
Proof.
  induction l as [|x l IH]; intros H Hn; simpl; [constructor; [intros []|constructor]|].
  inversion H as [|? ? Hx Hl]; subst. constructor.
  - intro Hin. apply in_app_or in Hin as [Hin|[<-|[]]]; [contradiction|apply Hn; left; reflexivity].
  - apply IH; [exact Hl|intro Hin; apply Hn; right; exact Hin].
Qed.

Lemma clear_ref_reg (st : tstate) :
  Inv st ->
  clear_ref st = mk_tstate (now st) (next_id st)
                   (filter (fun t => negb (is_reg t)) (pending st))
                   (timeoutRef st) (loadedOnce st) (log st).
Proof.
  destruct st as [n nx p r lo lg]. intros (H0 & Hnd & Hid & Hreg & Hle & Hdue).
  simpl in *. unfold clear_ref. simpl.
  destruct r as [r|].
  - destruct (Nat.eqb r 0) eqn:E.
    + apply Nat.eqb_eq in E. subst r. rewrite filter_id; [reflexivity|].
      intros t Ht. unfold is_reg. destruct (act t) eqn:A; [|reflexivity].
      specialize (Hreg t Ht A). specialize (Hid t Ht). injection Hreg as Hr. lia.
    + unfold clearTimeout. simpl. f_equal. apply filter_ext_in.
      intros t Ht. unfold is_reg. destruct (act t) eqn:A.
      * rewrite (Hreg t Ht A) in *. injection (Hreg t Ht A) as ->.
        rewrite Nat.eqb_refl. reflexivity.
      * destruct (Nat.eqb (tid t) r) eqn:Et; [|reflexivity].
        apply Nat.eqb_eq in Et. subst r. exfalso. exact (Hle t Ht A eq_refl).
  - rewrite filter_id; [reflexivity|].
    intros t Ht. unfold is_reg. destruct (act t) eqn:A; [|reflexivity].
    specialize (Hreg t Ht A). discriminate.
Qed.

Lemma onFrameLoad_eq (st : tstate) :
  Inv st ->
  onFrameLoad st =
  mk_tstate (now st) (S (S (next_id st)))
    ((filter (fun t => negb (is_reg t)) (pending st)
      ++ [mk_timer (next_id st) (now st + 1) RegisterComponentWindow])
      ++ [mk_timer (S (next_id st)) (now st + 200) OnLoadEnd])%list
    (Some (next_id st)) true (log st).
Proof.
  destruct st as [n nx p r lo lg]. intro H.
  assert (H' : Inv (mk_tstate n nx p r true lg)) by exact H.
  unfold onFrameLoad. cbv zeta. cbn [now next_id pending timeoutRef loadedOnce log].
  rewrite (clear_ref_reg _ H'). reflexivity.
Qed.

Lemma onLoadErrorHandler_eq (st : tstate) :
  Inv st ->
  onLoadErrorHandler st =
  mk_tstate (now st) (next_id st) (filter (fun t => negb (is_reg t)) (pending st))
    (timeoutRef st) (loadedOnce st) (log st ++ [LoadErrorSignalled])%list.
Proof.
  intro H. unfold onLoadErrorHandler. cbv zeta. rewrite (clear_ref_reg _ H). reflexivity.
Qed.

Lemma Inv_init : Inv init.
Proof.
  unfold Inv, init; simpl.
  split; [lia|split; [constructor|]].
  repeat split; intros; contradiction.
Qed.

Lemma Inv_sub (st : tstate) (n' : nat) (q : timer -> bool) (lo : bool) (lg : list frame_event) :
  Inv st -> now st <= n' ->
  Inv (mk_tstate n' (next_id st) (filter q (pending st)) (timeoutRef st) lo lg).
Proof.
  intros (H0 & Hnd & Hid & Hreg & Hle & Hdue) Hn. unfold Inv; simpl.
  split; [exact H0|split; [apply NoDup_map_filter, Hnd|]].
  split; [|split; [|split]]; intros t Ht; apply filter_In in Ht as [Ht _].
  - apply (Hid t Ht).
  - apply (Hreg t Ht).
  - apply (Hle t Ht).
  - specialize (Hdue t Ht). lia.
Qed.

Lemma Inv_frame (st : tstate) : Inv st -> Inv (onFrameLoad st).
Proof.
  intro H. rewrite (onFrameLoad_eq st H).
  destruct H as (H0 & Hnd & Hid & Hreg & Hle & Hdue).
  unfold Inv; simpl.
  assert (Hold : forall t, In t (filter (fun t => negb (is_reg t)) (pending st)) ->
                 In t (pending st) /\ act t = OnLoadEnd).
  { intros t Ht. apply filter_In in Ht as [Ht Hq]. split; [exact Ht|].
    unfold is_reg in Hq. destruct (act t); [discriminate|reflexivity]. }
  split; [lia|split; [|split; [|split; [|split]]]].
  - rewrite !map_app. simpl. apply NoDup_snoc; [apply NoDup_snoc|].
    + apply NoDup_map_filter, Hnd.
    + intro Hin. apply in_map_iff in Hin as [t [Ht Hin]].
      destruct (Hold t Hin) as [Hin' _]. specialize (Hid t Hin'). lia.
    + intro Hin. apply in_app_or in Hin as [Hin|[Hin|[]]]; [|simpl in Hin; lia].
      apply in_map_iff in Hin as [t [Ht Hin]].
      destruct (Hold t Hin) as [Hin' _]. specialize (Hid t Hin'). lia.
  - intros t Ht. rewrite !in_app_iff in Ht. simpl in Ht.
    destruct Ht as [[Ht|[<-|[]]]|[<-|[]]]; simpl; [|lia|lia].
    destruct (Hold t Ht) as [Ht' _]. specialize (Hid t Ht'). lia.
  - intros t Ht A. rewrite !in_app_iff in Ht. simpl in Ht.
    destruct Ht as [[Ht|[<-|[]]]|[<-|[]]]; simpl in *; [|reflexivity|discriminate].
    destruct (Hold t Ht) as [_ A']. rewrite A in A'. discriminate.
  - intros t Ht A. rewrite !in_app_iff in Ht. simpl in Ht.
    destruct Ht as [[Ht|[<-|[]]]|[<-|[]]]; simpl in *; [|discriminate|].
    + destruct (Hold t Ht) as [Ht' _]. specialize (Hid t Ht').
      intro E. injection E as E. lia.
    + intro E. injection E as E. lia.
  - intros t Ht. rewrite !in_app_iff in Ht. simpl in Ht.
    destruct Ht as [[Ht|[<-|[]]]|[<-|[]]]; simpl; [|lia|lia].
    destruct (Hold t Ht) as [Ht' _]. apply (Hdue t Ht').
Qed.

Lemma Inv_step (st : tstate) (i : input) : Inv st -> Inv (step st i).
Proof.
  intro H. destruct i; simpl.
  - apply Inv_frame, H.
  - rewrite (onLoadErrorHandler_eq st H). apply Inv_sub; [exact H|lia].
  - unfold tick. apply Inv_sub; [exact H|lia].
Qed.

Lemma Inv_run (ins : list input) (st : tstate) : Inv st -> Inv (run ins st).
Proof.
  unfold run. revert st. induction ins as [|i ins IH]; intros st H; simpl; [exact H|].
  apply IH, Inv_step, H.
Qed.

Lemma count_reg_le_one (l : list timer) (r : nat) :
  NoDup (map tid l) -> (forall t, In t l -> act t = RegisterComponentWindow -> tid t = r) ->
  count_pending RegisterComponentWindow l <= 1 /\
  (~ In r (map tid l) -> count_pending RegisterComponentWindow l = 0).
Proof.
  unfold count_pending. induction l as [|x l IH]; intros Hnd Hr; simpl; [lia|].
  inversion Hnd as [|? ? Hx Hl]; subst.
  destruct IH as [IH1 IH2]; [exact Hl|intros t Ht; apply Hr; right; exact Ht|].
  destruct (act x) eqn:A; simpl.
  - assert (Ex : tid x = r) by (apply Hr; [left; reflexivity|exact A]).
    subst r. rewrite (IH2 Hx). split; [lia|].
    intro Hn. exfalso. apply Hn. left. reflexivity.
  - split; [exact IH1|]. intro Hn. apply IH2. intro Hin. apply Hn. right. exact Hin.
Qed.

(** Whatever the sequence of loads, load errors and elapsed milliseconds,
    at most one [registerComponentWindow] timer is pending, and it is the
    one [timeoutRef] holds: a new frame load replaces the earlier pending
    registration. *)
Theorem register_timer_unique (ins : list input) :
  let st := run ins init in
  count_pending RegisterComponentWindow (pending st) <= 1 /\
  (forall t, In t (pending st) -> act t = RegisterComponentWindow -> timeoutRef st = Some (tid t)).
Proof.
  cbv zeta.
  destruct (Inv_run ins init Inv_init) as (H0 & Hnd & Hid & Hreg & Hle & Hdue).
  split; [|exact Hreg].
  destruct (timeoutRef (run ins init)) as [r|] eqn:Er.
  - refine (proj1 (count_reg_le_one _ r Hnd _)).
    intros t Ht A. pose proof (Hreg t Ht A) as E. rewrite ?Er in E. congruence.
  - unfold count_pending. rewrite filter_none.
    + simpl. lia.
    + intros t Ht. specialize (Hreg t Ht). destruct (act t); [|reflexivity].
      rewrite ?Er in Hreg. discriminate (Hreg eq_refl).
Qed.

Lemma count_fired_app (a : timer_action) (l1 l2 : list frame_event) :
  count_fired a (l1 ++ l2) = count_fired a l1 + count_fired a l2.
Proof. unfold count_fired. rewrite filter_app, length_app. reflexivity. Qed.

Lemma count_fired_loaderror (a : timer_action) : count_fired a [LoadErrorSignalled] = 0.
Proof. destruct a; reflexivity. Qed.

Lemma clear_ref_sub (st : tstate) :
  (forall t, In t (pending (clear_ref st)) -> In t (pending st)) /\
  log (clear_ref st) = log st /\ now (clear_ref st) = now st.
Proof.
  unfold clear_ref. destruct (timeoutRef st) as [r|]; [destruct (Nat.eqb r 0)|];
    repeat split; auto; unfold clearTimeout; simpl; intros t Ht; apply filter_In in Ht; apply Ht.
Qed.

Lemma fired_no_reg (l : list timer) :
  (forall t, In t l -> act t = OnLoadEnd) ->
  count_fired RegisterComponentWindow (map (fun x => Fired (act x)) l) = 0.
Proof.
  unfold count_fired. induction l as [|x l IH]; intro H; simpl; [reflexivity|].
  rewrite (H x (or_introl eq_refl)). apply IH. intros t Ht; apply H; right; exact Ht.
Qed.

Lemma no_reg_run (ins : list input) (st : tstate) :
  (forall i, In i ins -> i <> FrameLoad) ->
  (forall t, In t (pending st) -> act t = OnLoadEnd) ->
  (forall t, In t (pending (run ins st)) -> act t = OnLoadEnd) /\
  count_fired RegisterComponentWindow (log (run ins st)) = count_fired RegisterComponentWindow (log st).
Proof.
  unfold run. revert st. induction ins as [|i ins IH]; intros st Hi Hp; cbn [fold_left]; [split; auto|].
  assert (Hi' : forall j, In j ins -> j <> FrameLoad) by (intros j Hj; apply Hi; right; exact Hj).
  destruct i.
  - exfalso. apply (Hi FrameLoad); [left|]; reflexivity.
  - change (step st LoadError) with (onLoadErrorHandler st).
    destruct (clear_ref_sub st) as [Hs [Hl _]].
    destruct (IH (onLoadErrorHandler st) Hi') as [H1 H2].
    + intros t Ht. apply Hp, Hs, Ht.
    + split; [exact H1|]. rewrite H2. unfold onLoadErrorHandler. simpl.
      rewrite count_fired_app, count_fired_loaderror, Hl. lia.
  - change (step st Tick) with (tick st).
    destruct (IH (tick st) Hi') as [H1 H2].
    + intros t Ht. unfold tick in Ht. simpl in Ht. apply filter_In in Ht as [Ht _]. apply Hp, Ht.
    + split; [exact H1|]. rewrite H2. unfold tick. simpl.
      rewrite count_fired_app, fired_no_reg; [lia|].
      intros t Ht. apply filter_In in Ht as [Ht _]. apply Hp, Ht.
Qed.

(** A load error cancels the pending registration: from the error until
    the next frame load, [registerComponentWindow] never fires and no
    registration is pending. *)
Theorem no_register_after_error (pre ins : list input)
    (Hins : forall i, In i ins -> i <> FrameLoad) :
  count_fired RegisterComponentWindow (log (run (pre ++ LoadError :: ins) init))
  = count_fired RegisterComponentWindow (log (run pre init)) /\
  count_pending RegisterComponentWindow (pending (run (pre ++ LoadError :: ins) init)) = 0.
Proof.
  unfold run at 1 3. rewrite fold_left_app. fold (run pre init). simpl.
  pose proof (Inv_run pre init Inv_init) as H.
  set (st := run pre init) in *.
  rewrite (onLoadErrorHandler_eq st H).
  destruct (no_reg_run ins (mk_tstate (now st) (next_id st)
                              (filter (fun t => negb (is_reg t)) (pending st))
                              (timeoutRef st) (loadedOnce st) (log st ++ [LoadErrorSignalled])%list)
                              Hins) as [H1 H2].
  - intros t Ht. simpl in Ht. apply filter_In in Ht as [_ Hq].
    unfold is_reg in Hq. destruct (act t); [discriminate|reflexivity].
  - fold (run ins (mk_tstate (now st) (next_id st)
                     (filter (fun t => negb (is_reg t)) (pending st))
                     (timeoutRef st) (loadedOnce st) (log st ++ [LoadErrorSignalled])%list)).
    split.
    + rewrite H2. simpl. rewrite count_fired_app, count_fired_loaderror. lia.
    + unfold count_pending. rewrite (filter_ext_in _ (fun _ => false)).
      * clear. induction (pending _) as [|x l IH]; simpl; [reflexivity|exact IH].
      * intros t Ht. rewrite (H1 t Ht). reflexivity.
Qed.

Lemma no_register_after_error_witness :
  (forall i, In i [Tick; Tick; LoadError] -> i <> FrameLoad) /\
  count_fired RegisterComponentWindow (log (run ([FrameLoad] ++ LoadError :: [Tick; Tick; LoadError]) init))
  = count_fired RegisterComponentWindow (log (run [FrameLoad] init)).
Proof.
  assert (H : forall i, In i [Tick; Tick; LoadError] -> i <> FrameLoad).
  { intros i [<-|[<-|[<-|[]]]]; discriminate. }
  split; [exact H|exact (proj1 (no_register_after_error [FrameLoad] _ H))].
Defined.

Lemma count_partition (a : timer_action) (g : timer -> bool) (l : list timer) :
  count_pending a (filter (fun x => negb (g x)) l) + count_fired a (map (fun x => Fired (act x)) (filter g l))
  = count_pending a l.
Proof.
  unfold count_pending, count_fired.
  destruct a; induction l as [|[i d b] l IH]; simpl; try reflexivity;
    destruct (g (mk_timer i d b)), b; simpl; rewrite <- IH; lia.
Qed.

Lemma count_filter_notreg (l : list timer) :
  count_pending OnLoadEnd (filter (fun t => negb (is_reg t)) l) = count_pending OnLoadEnd l.
Proof.
  unfold count_pending, is_reg. induction l as [|[i d b] l IH]; simpl; [reflexivity|].
  destruct b; simpl; lia.
Qed.

Lemma count_pending_app (a : timer_action) (l1 l2 : list timer) :
  count_pending a (l1 ++ l2) = count_pending a l1 + count_pending a l2.
Proof. unfold count_pending. rewrite filter_app, length_app. reflexivity. Qed.

Lemma conserve_step (st : tstate) (i : input) :
  Inv st ->
  count_pending OnLoadEnd (pending (step st i)) + count_fired OnLoadEnd (log (step st i))
  = count_pending OnLoadEnd (pending st) + count_fired OnLoadEnd (log st)
    + (match i with FrameLoad => 1 | _ => 0 end).
Proof.
  intro H. destruct i; unfold step.
  - rewrite (onFrameLoad_eq st H). cbn [pending log].
    rewrite !count_pending_app, count_filter_notreg.
    assert (E1 : count_pending OnLoadEnd [mk_timer (next_id st) (now st + 1) RegisterComponentWindow] = 0)
      by reflexivity.
    assert (E2 : count_pending OnLoadEnd [mk_timer (S (next_id st)) (now st + 200) OnLoadEnd] = 1)
      by reflexivity.
    rewrite E1, E2. lia.
  - rewrite (onLoadErrorHandler_eq st H). cbn [pending log].
    rewrite count_filter_notreg, count_fired_app, count_fired_loaderror. lia.
  - unfold tick. cbv zeta. cbn [pending log]. rewrite count_fired_app.
    pose proof (count_partition OnLoadEnd (fun x => Nat.leb (due x) (S (now st))) (pending st)) as P.
    cbv beta in P. lia.
Qed.

Lemma conserve_run (ins : list input) (st : tstate) :
  Inv st ->
  count_pending OnLoadEnd (pending (run ins st)) + count_fired OnLoadEnd (log (run ins st))
  = count_pending OnLoadEnd (pending st) + count_fired OnLoadEnd (log st) + frame_loads ins.
Proof.
  unfold run, frame_loads. revert st. induction ins as [|i ins IH]; intros st H; simpl; [lia|].
  rewrite (IH (step st i) (Inv_step st i H)), (conserve_step st i H).
  destruct i; simpl; lia.
Qed.

Lemma ticks_pending (k : nat) (st : tstate) :
  pending (run (repeat Tick (S k)) st)
  = filter (fun x => negb (Nat.leb (due x) (now st + S k))) (pending st).
Proof.
  unfold run. revert st. induction k as [|k IH]; intro st.
  - simpl. rewrite Nat.add_1_r. reflexivity.
  - change (fold_left step (repeat Tick (S (S k))) st)
      with (fold_left step (repeat Tick (S k)) (tick st)).
    rewrite IH. unfold tick. simpl. rewrite filter_filter_and.
    apply filter_ext. intro x.
    destruct (Nat.leb_spec (due x) (S (now st))), (Nat.leb_spec (due x) (S (now st + S k))),
      (Nat.leb_spec (due x) (now st + S (S k))); simpl; try reflexivity; lia.
Qed.

(** The [onLoadEnd] timer is never cancelled, by a later frame load or by a
    load error: 200 ms after any sequence of inputs, [onLoadEnd] has fired
    exactly once per [onFrameLoad] call and no timer is left pending. *)
Theorem every_frame_load_ends (ins : list input) :
  count_fired OnLoadEnd (log (run (ins ++ repeat Tick 200) init)) = frame_loads ins /\
  pending (run (ins ++ repeat Tick 200) init) = [].
Proof.
  assert (E : run (ins ++ repeat Tick 200) init = run (repeat Tick 200) (run ins init))
    by (unfold run; apply fold_left_app).
  rewrite E. pose proof (Inv_run ins init Inv_init) as H.
  set (st := run ins init) in *.
  assert (Hp : pending (run (repeat Tick 200) st) = []).
  { rewrite (ticks_pending 199 st). apply filter_none.
    intros x Hx. destruct H as (_ & _ & _ & _ & _ & Hdue). specialize (Hdue x Hx).
    destruct (Nat.leb_spec (due x) (now st + 200)); [reflexivity|lia]. }
  split; [|exact Hp].
  pose proof (conserve_run (repeat Tick 200) st H) as C1.
  pose proof (conserve_run ins init Inv_init) as C2.
  rewrite Hp in C1. fold st in C2.
  assert (Z : frame_loads (repeat Tick 200) = 0) by reflexivity.
  assert (I1 : count_pending OnLoadEnd (pending init) = 0) by reflexivity.
  assert (I2 : count_fired OnLoadEnd (log init) = 0) by reflexivity.
  assert (I3 : count_pending OnLoadEnd [] = 0) by reflexivity.
  rewrite Z, I3 in C1. rewrite I1, I2 in C2. lia.
Qed.

End TimerFacts.

(** *** The unsupported-editor warning *)

Module WarnFacts.
Import Warn.
Local Open Scope nat_scope.

Lemma mounts_pref_set (android : bool) (version : Z) (answers : list bool) :
  mounts android version true answers = ([], true).
Proof.
  induction answers as [|a answers IH]; simpl; [reflexivity|].
  unfold warnOnMount. destruct (android && Z.leb version 23); simpl; rewrite IH; reflexivity.
Qed.

(** Outside Android 6 and earlier ([Platform.OS === 'android' &&
    Platform.Version <= 23]) no mount ever shows the warning or changes the
    stored preference. *)
Theorem warn_only_old_android (android : bool) (version : Z) (pref : bool) (answers : list bool)
    (Hdev : (android && Z.leb version 23)%bool = false) :
  mounts android version pref answers = ([], pref).
Proof.
  induction answers as [|a answers IH]; simpl; [reflexivity|].
  unfold warnOnMount. rewrite Hdev. rewrite IH. reflexivity.
Qed.

Lemma warn_only_old_android_witness :
  (true && Z.leb 29 23)%bool = false /\
  mounts true 29 false [false; true; false] = ([], false).
Proof.
  assert (H : (true && Z.leb 29 23)%bool = false) by reflexivity.
  split; [exact H|exact (warn_only_old_android true 29 false _ H)].
Defined.

(** On Android 6 and earlier, with the preference not yet stored, the
    warning is shown at every mount until the user first confirms ["Don't
    show again"]; that answer stores the preference once, and no later
    mount shows the warning again. *)
Theorem warn_until_confirmed (version : Z) (n : nat) (rest : list bool)
    (Hv : Z.leb version 23 = true) :
  let r := mounts true version false (repeat false n ++ true :: rest) in
  alerts (fst r) = S n /\
  length (filter (fun e => match e with SetDoNotShowAgain => true | _ => false end) (fst r)) = 1 /\
  snd r = true /\
  (forall m, alerts (fst (mounts true version false (repeat false m))) = m /\
             snd (mounts true version false (repeat false m)) = false).
Proof.
  assert (Hone : forall b, warnOnMount true version false b =
                           if b then ([ConfirmShown; SetDoNotShowAgain], true)
                           else ([ConfirmShown], false)).
  { intro b. unfold warnOnMount. simpl. rewrite Hv. destruct b; reflexivity. }
  assert (Hmiss : forall m l, mounts true version false (repeat false m ++ l)
                  = ((fst (mounts true version false (repeat false m)) ++
                      fst (mounts true version false l))%list,
                     snd (mounts true version false l)) /\
                  fst (mounts true version false (repeat false m)) = repeat ConfirmShown m /\
                  snd (mounts true version false (repeat false m)) = false).
  { intros m l. induction m as [|m [IH1 [IH2 IH3]]]; simpl.
    - destruct (mounts true version false l). simpl. repeat split.
    - rewrite Hone. rewrite IH1.
      destruct (mounts true version false (repeat false m)) as [e1 p1].
      simpl in *. subst. split; [reflexivity|split; reflexivity]. }
  assert (Hcount : forall m, alerts (repeat ConfirmShown m) = m).
  { intro m. unfold alerts. induction m as [|m IH]; simpl; [reflexivity|rewrite IH; reflexivity]. }
  assert (Hset : forall m, length (filter (fun e => match e with SetDoNotShowAgain => true | _ => false end)
                                          (repeat ConfirmShown m)) = 0).
  { intro m. induction m as [|m IH]; simpl; [reflexivity|exact IH]. }
  cbv zeta. destruct (Hmiss n (true :: rest)) as [E [E1 E2]]. rewrite E, E1.
  simpl. rewrite Hone. simpl. rewrite mounts_pref_set. simpl.
  split; [|split; [|split]].
  - unfold alerts in *. rewrite filter_app, length_app. simpl.
    rewrite (Hcount n). lia.
  - rewrite filter_app, length_app, Hset. reflexivity.
  - reflexivity.
  - intro m. destruct (Hmiss m []) as [_ [F1 F2]]. rewrite F1, F2.
    split; [apply Hcount|reflexivity].
Qed.

Lemma warn_until_confirmed_witness :
  Z.leb 23 23 = true /\
  alerts (fst (mounts true 23 false ([false; false] ++ [true; false; true]))) = 3.
Proof.
  assert (H : Z.leb 23 23 = true) by reflexivity.
  split; [exact H|exact (proj1 (warn_until_confirmed 23 2 [false; true] H))].
Defined.

End WarnFacts.

(** *** Section selection in the action sheet *)

Module SheetExtra.
Import Sheet.

Lemma expandSection_absorb (k k' : string) (st : list anim_section) :
  expandSection k (expandSection k' st) = expandSection k st.
Proof.
  induction st as [|s st IH]; simpl; [reflexivity|].
  rewrite IH. destruct (expandable s) eqn:E; simpl; [reflexivity|rewrite E; reflexivity].
Qed.

(** The animation targets of the sections depend only on the last section
    tapped: the earlier selections are forgotten, and tapping the expanded
    section again keeps it expanded instead of collapsing it. *)
Theorem last_selection_wins (sel : list string) (k : string) (st : list anim_section) :
  expandAll (sel ++ [k]) st = expandSection k st /\
  expandSection k (expandSection k st) = expandSection k st.
Proof.
  split; [|apply expandSection_absorb].
  unfold expandAll. rewrite fold_left_app. simpl.
  revert st. induction sel as [|k' sel IH]; intro st; simpl; [reflexivity|].
  rewrite IH. apply expandSection_absorb.
Qed.

End SheetExtra.

End Extras.

